(** * The exam session of src/App.tsx

    A shallow embedding of the state and the event handlers of the [App]
    component (src/App.tsx): the answer bookkeeping of
    [handleOptionSelect], the per-question status of [getQuestionStatus],
    the score of the result view, the timer, submission, navigation and
    [formatTime].

    Conventions.
    - [userAnswers : Record<number, string[]>] is a [gmap Z (list string)];
      a missing key is JavaScript's [undefined], and [prev[qId] || []] is
      [default [] (prev !! qId)] (an array, even an empty one, is truthy).
    - Array lengths, question ids, indices and the elapsed seconds are
      integers far below 2^53, where JavaScript's number arithmetic on them
      is exact; they are [nat] and [Z] here.  The one place where the code
      leaves the integers, the percentage of the result view, is computed
      with binary64 floats ([PrimFloat]), as JavaScript does.
    - React state setters are applied one event at a time: an event handler
      is a function from [State] to [State]. *)

From Stdlib Require Import ZArith Lia Ascii String Floats Uint63.
From stdpp Require Import base option list gmap strings pretty.

(** ** Types (src/App.tsx, lines 11-33) *)

Inductive QuestionType := single | multiple.

#[global] Instance QuestionType_eq_dec : EqDecision QuestionType.
Proof. solve_decision. Defined.

Module Option.
Record t := { id : string; text : string }.
End Option.

Module Question.
Record t := {
  id : Z;
  type : QuestionType;
  questionText : string;
  codeSnippet : option string;
  options : list Option.t;
  correctAnswers : list string;
  explanation : string
}.
End Question.

Module ExamSet.
Record t := {
  id : Z;
  name : string;
  description : string;
  questions : list Question.t;
  durationMinutes : Z
}.
End ExamSet.

(** ** Component state (lines 47-52) *)

Inductive View := ViewHome | ViewExam | ViewResult.

#[global] Instance View_eq_dec : EqDecision View.
Proof. solve_decision. Defined.

Record State := {
  view : View;
  currentExam : option ExamSet.t;
  currentQuestionIdx : Z;
  userAnswers : gmap Z (list string);
  timeElapsed : Z;
  isReviewMode : bool
}.

(** The values of the [useState] calls. *)
Definition initialState : State :=
  {| view := ViewHome; currentExam := None; currentQuestionIdx := 0;
     userAnswers := ∅; timeElapsed := 0; isReviewMode := false |}.

Definition setView (v : View) (s : State) : State :=
  {| view := v; currentExam := currentExam s;
     currentQuestionIdx := currentQuestionIdx s;
     userAnswers := userAnswers s; timeElapsed := timeElapsed s;
     isReviewMode := isReviewMode s |}.

Definition setCurrentExam (e : option ExamSet.t) (s : State) : State :=
  {| view := view s; currentExam := e;
     currentQuestionIdx := currentQuestionIdx s;
     userAnswers := userAnswers s; timeElapsed := timeElapsed s;
     isReviewMode := isReviewMode s |}.

Definition setCurrentQuestionIdx (f : Z → Z) (s : State) : State :=
  {| view := view s; currentExam := currentExam s;
     currentQuestionIdx := f (currentQuestionIdx s);
     userAnswers := userAnswers s; timeElapsed := timeElapsed s;
     isReviewMode := isReviewMode s |}.

Definition setUserAnswers
    (f : gmap Z (list string) → gmap Z (list string)) (s : State) : State :=
  {| view := view s; currentExam := currentExam s;
     currentQuestionIdx := currentQuestionIdx s;
     userAnswers := f (userAnswers s); timeElapsed := timeElapsed s;
     isReviewMode := isReviewMode s |}.

Definition setTimeElapsed (f : Z → Z) (s : State) : State :=
  {| view := view s; currentExam := currentExam s;
     currentQuestionIdx := currentQuestionIdx s;
     userAnswers := userAnswers s; timeElapsed := f (timeElapsed s);
     isReviewMode := isReviewMode s |}.

Definition setIsReviewMode (b : bool) (s : State) : State :=
  {| view := view s; currentExam := currentExam s;
     currentQuestionIdx := currentQuestionIdx s;
     userAnswers := userAnswers s; timeElapsed := timeElapsed s;
     isReviewMode := b |}.

(** ** JavaScript helpers *)

(** [arr.includes(x)] on an array of strings. *)
Definition includes (x : string) (arr : list string) : bool :=
  bool_decide (x ∈ arr).

(** [prev[qId] || []]. *)
Definition answersFor (answers : gmap Z (list string)) (qId : Z) : list string :=
  default [] (answers !! qId).

(** [str.padStart(n, c)] for a one-character pad string [c]. *)
Definition padStart (n : nat) (c : ascii) (str : string) : string :=
  string_of_list_ascii (replicate (n - String.length str) c) +:+ str.

(** [n.toString()] for an integer-valued number. *)
Definition toString (n : Z) : string := pretty n.

(** ** formatTime (lines 37-43)

    [Math.floor(seconds / 3600)] is the floor quotient, [%] is the
    remainder that takes the sign of the dividend ([Z.rem]). *)
Definition formatTime (seconds : Z) : string :=
  let h := (seconds / 3600)%Z in
  let m := (Z.rem seconds 3600 / 60)%Z in
  let s := Z.rem seconds 60 in
  if (0 <? h)%Z
  then toString h +:+ ":" +:+ padStart 2 "0"%char (toString m)
         +:+ ":" +:+ padStart 2 "0"%char (toString s)
  else padStart 2 "0"%char (toString m) +:+ ":" +:+ padStart 2 "0"%char (toString s).

(** ** Actions (lines 64-129) *)

Definition handleStartExam (exam : ExamSet.t) (s : State) : State :=
  setView ViewExam
    (setIsReviewMode false
      (setTimeElapsed (λ _, 0%Z)
        (setUserAnswers (λ _, ∅)
          (setCurrentQuestionIdx (λ _, 0%Z)
            (setCurrentExam (Some exam) s))))).

(** The updater passed to [setUserAnswers] (lines 76-92). *)
Definition selectUpdate (qId : Z) (optionId : string) (type : QuestionType)
    (prev : gmap Z (list string)) : gmap Z (list string) :=
  let currentSelected := answersFor prev qId in
  match type with
  | single => <[qId := [optionId]]> prev
  | multiple =>
      if includes optionId currentSelected then
        let newSelection := filter (λ id, id ≠ optionId) currentSelected in
        if (length newSelection =? 0)%nat
        then delete qId prev
        else <[qId := newSelection]> prev
      else <[qId := currentSelected ++ [optionId]]> prev
  end.

Definition handleOptionSelect (qId : Z) (optionId : string)
    (type : QuestionType) (s : State) : State :=
  if isReviewMode s then s
  else setUserAnswers (selectUpdate qId optionId type) s.

Definition handleNext (s : State) : State :=
  match currentExam s with
  | Some exam =>
      if (currentQuestionIdx s <? Z.of_nat (length (ExamSet.questions exam)) - 1)%Z
      then setCurrentQuestionIdx (λ prev, prev + 1)%Z s
      else s
  | None => s
  end.

Definition handlePrev (s : State) : State :=
  if (0 <? currentQuestionIdx s)%Z
  then setCurrentQuestionIdx (λ prev, prev - 1)%Z s
  else s.

(** [window.confirm] is the one call that leaves the component: a handler
    either finishes with a state or asks one question and continues with
    the user's reply. *)
Inductive Interaction :=
  | Done (s : State)
  | Confirm (message : string) (k : bool → State).

Definition reply (i : Interaction) (ok : bool) : State :=
  match i with
  | Done s => s
  | Confirm _ k => k ok
  end.

Definition partialMessage (answeredCount total : nat) : string :=
  "You have answered " +:+ toString (Z.of_nat answeredCount) +:+ "/"
    +:+ toString (Z.of_nat total) +:+ " questions. Submit now?".

Definition fullMessage : string := "Confirm submission?".

(** Lines 117-118. *)
Definition enterResult (s : State) : State :=
  setIsReviewMode true (setView ViewResult s).

Definition handleSubmitExam (s : State) : Interaction :=
  match currentExam s with
  | Some exam =>
      let answeredCount := size (userAnswers s) in
      let total := length (ExamSet.questions exam) in
      if (answeredCount <? total)%nat
      then Confirm (partialMessage answeredCount total)
             (λ ok, if negb ok then s else enterResult s)
      else Confirm fullMessage
             (λ ok, if negb ok then s else enterResult s)
  | None => Done (enterResult s)
  end.

Definition handleReviewQuestion (index : Z) (s : State) : State :=
  setView ViewExam (setCurrentQuestionIdx (λ _, index) s).

Definition handleGoHome (s : State) : State :=
  setCurrentExam None (setView ViewHome s).

(** ** Timer (lines 55-61)

    The effect installs the interval exactly when [view === 'exam' &&
    !isReviewMode] and clears it when either changes; the interval's
    callback is [tick]. *)
Definition timerRunning (s : State) : bool :=
  bool_decide (view s = ViewExam) && negb (isReviewMode s).

Definition tick (s : State) : State := setTimeElapsed (λ prev, prev + 1)%Z s.

(** ** getQuestionStatus (lines 131-137) *)

Record QuestionStatus := {
  isCorrect : bool;
  isSkipped : bool;
  isAnswered : bool
}.

Definition getQuestionStatus (s : State) (q : Question.t) : QuestionStatus :=
  let userAnswer := answersFor (userAnswers s) (Question.id q) in
  let isCorrect :=
    (length (Question.correctAnswers q) =? length userAnswer)%nat
    && forallb (λ ans, includes ans userAnswer) (Question.correctAnswers q) in
  let isSkipped := (length userAnswer =? 0)%nat in
  {| isCorrect := isCorrect; isSkipped := isSkipped;
     isAnswered := negb isSkipped |}.

(** ** Score of the result view (lines 176-179)

    [correctCount / totalQ] and the product with [100] are binary64
    operations; array lengths convert to floats exactly. *)

Definition number_of_nat (n : nat) : float :=
  PrimFloat.of_uint63 (Uint63.of_Z (Z.of_nat n)).

(** [Math.round(x)]: the integer nearest to [x], a tie going to the larger
    one, that is [floor(x + 1/2)] on the exact value [x = ±m·2^e].  [None]
    stands for the results that are not integers (NaN and the infinities,
    which [Math.round] returns as they are). *)
Definition Math_round (x : float) : option Z :=
  match Prim2SF x with
  | S754_zero _ => Some 0%Z
  | S754_finite sg m e =>
      let n := if sg then Z.neg m else Z.pos m in
      Some (if (0 <=? e)%Z then n * 2 ^ e
            else (2 * n + 2 ^ (- e)) / 2 ^ (- e + 1))%Z
  | _ => None
  end.

(** [Math.floor(x)] on the exact value of [x], likewise. *)
Definition Math_floor (x : float) : option Z :=
  match Prim2SF x with
  | S754_zero _ => Some 0%Z
  | S754_finite sg m e =>
      let n := if sg then Z.neg m else Z.pos m in
      Some (if (0 <=? e)%Z then n * 2 ^ e else n / 2 ^ (- e))%Z
  | _ => None
  end.

Record ResultDashboard := {
  totalQ : nat;
  correctCount : nat;
  score : option Z
}.

Definition resultScore (s : State) (exam : ExamSet.t) : ResultDashboard :=
  let totalQ := length (ExamSet.questions exam) in
  let correctCount :=
    length (filter (λ q, isCorrect (getQuestionStatus s q) = true)
                   (ExamSet.questions exam)) in
  let score :=
    Math_round (PrimFloat.mul
                  (PrimFloat.div (number_of_nat correctCount) (number_of_nat totalQ))
                  (number_of_nat 100)) in
  {| totalQ := totalQ; correctCount := correctCount; score := score |}.

(** The result dashboard is rendered when [view === 'result' && currentExam]. *)
Definition resultDashboard (s : State) : option ResultDashboard :=
  match view s, currentExam s with
  | ViewResult, Some exam => Some (resultScore s exam)
  | _, _ => None
  end.

(** ** Exam view (lines 214-217): the question being shown.
    [questions[i]] is [undefined] when [i] is not an index of the array. *)
Definition currentQ (s : State) : option Question.t :=
  match currentExam s with
  | Some exam =>
      if (0 <=? currentQuestionIdx s)%Z
      then ExamSet.questions exam !! Z.to_nat (currentQuestionIdx s)
      else None
  | None => None
  end.

(** ** Events

    What the user and the timer can do to the component.  [SubmitExam ok]
    carries the user's reply to the confirmation dialog; [Tick] is the
    interval's callback, which exists only while the timer is installed. *)
Inductive Event :=
  | StartExam (exam : ExamSet.t)
  | OptionSelect (qId : Z) (optionId : string) (type : QuestionType)
  | Next
  | Prev
  | SubmitExam (ok : bool)
  | ReviewQuestion (index : Z)
  | GoHome
  | Tick.

Definition step (s : State) (ev : Event) : State :=
  match ev with
  | StartExam exam => handleStartExam exam s
  | OptionSelect qId optionId type => handleOptionSelect qId optionId type s
  | Next => handleNext s
  | Prev => handlePrev s
  | SubmitExam ok => reply (handleSubmitExam s) ok
  | ReviewQuestion index => handleReviewQuestion index s
  | GoHome => handleGoHome s
  | Tick => if timerRunning s then tick s else s
  end.

Definition run (s : State) (evs : list Event) : State := foldl step s evs.

Inductive reachable : State → Prop :=
  | reachable_init : reachable initialState
  | reachable_step s ev : reachable s → reachable (step s ev).

(** A click on an option of question [q] (line 284):
    [handleOptionSelect(currentQ.id, option.id, currentQ.type)]. *)
Definition clickOption (s : State) (c : Question.t * string) : State :=
  handleOptionSelect (Question.id c.1) c.2 (Question.type c.1) s.

(** ** Specification-side notions *)

(** No stored answer list is empty or has a repeated option id. *)
Definition answers_wf (answers : gmap Z (list string)) : Prop :=
  map_Forall (λ _ l, l ≠ [] ∧ NoDup l) answers.

(** No stored answer list has a repeated option id. *)
Definition answers_nodup (answers : gmap Z (list string)) : Prop :=
  map_Forall (λ _ l, NoDup l) answers.

(** The answers read as the mapping from question ids to sets of option
    ids. *)
Definition answerSets (answers : gmap Z (list string)) : gmap Z (gset string) :=
  (λ l, list_to_set l) <$> answers.

(** A two-digit field: the tens digit, then the units digit. *)
Definition digit (d : Z) : ascii := ascii_of_nat (48 + Z.to_nat d).
Definition two_digits (n : Z) : string :=
  String (digit (n / 10)) (String (digit (n mod 10)) EmptyString).

(** The nearest integer to [100 * c / t], a tie going up (the rule of
    [Math.round]), in exact arithmetic. *)
Definition round_percent (c t : nat) : Z :=
  ((200 * Z.of_nat c + Z.of_nat t) / (2 * Z.of_nat t))%Z.

(** The percentage the result view shows for [c] correct answers out of
    [t] questions (the [score] of [resultScore]). *)
Definition percentage (c t : nat) : option Z :=
  Math_round (PrimFloat.mul (PrimFloat.div (number_of_nat c) (number_of_nat t))
                            (number_of_nat 100)).

(** The check run on each pair [c ≤ t] below: the percentage is an integer
    from 0 to 100, and the exactly rounded percentage or one less. *)
Definition percentage_ok (c t : nat) : bool :=
  match percentage c t with
  | Some p =>
      (0 <=? p)%Z && (p <=? 100)%Z
      && ((p =? round_percent c t)%Z || (p =? round_percent c t - 1)%Z)
  | None => false
  end.

(** The two quotients of [formatTime] as JavaScript computes them, a
    binary64 division followed by [Math.floor], agree with the integer
    quotients used in [formatTime] above. *)
Definition number_of_Z (n : Z) : float := PrimFloat.of_uint63 (Uint63.of_Z n).

Definition quotients_exact (seconds : Z) : bool :=
  bool_decide (Math_floor (PrimFloat.div (number_of_Z seconds)
                                         (number_of_Z 3600))
               = Some (seconds / 3600)%Z)
  && bool_decide (Math_floor (PrimFloat.div
                                (number_of_Z (Z.rem seconds 3600))
                                (number_of_Z 60))
                  = Some (Z.rem seconds 3600 / 60)%Z).

(** [f] holds of the [n] integers from [z] on. *)
Fixpoint all_from (f : Z → bool) (n : nat) (z : Z) : bool :=
  match n with
  | O => true
  | S n => f z && all_from f n (z + 1)%Z
  end.

(** Events other than the start of a new exam. *)
Definition startsExam (ev : Event) : bool :=
  match ev with StartExam _ => true | _ => false end.

(** ** Sample data *)

Definition sampleQuestion (ty : QuestionType) (correct : list string) (i : Z)
    : Question.t :=
  {| Question.id := i; Question.type := ty; Question.questionText := "";
     Question.codeSnippet := None;
     Question.options := (λ o, {| Option.id := o; Option.text := "" |})
                           <$> ["A"; "B"; "C"; "D"];
     Question.correctAnswers := correct; Question.explanation := "" |}.

Definition sampleExam (qs : list Question.t) : ExamSet.t :=
  {| ExamSet.id := 1; ExamSet.name := "Set"; ExamSet.description := "";
     ExamSet.questions := qs; ExamSet.durationMinutes := 60 |}.

(** Forty single-choice questions with correct answer "A". *)
Definition exam40 : ExamSet.t :=
  sampleExam (sampleQuestion single ["A"] <$> seqZ 1 40).

(** The user answers the first [k] questions of [exam40] with "A", the
    others with "B", and submits. *)
Definition session40 (k : Z) : State :=
  run initialState
    ([StartExam exam40]
       ++ ((λ i, OptionSelect i "A" single) <$> seqZ 1 k)
       ++ ((λ i, OptionSelect i "B" single) <$> seqZ (1 + k) (40 - k))
       ++ [SubmitExam true]).

(** One question. *)
Definition exam1 : ExamSet.t := sampleExam [sampleQuestion single ["B"] 1].

(** The specification's example: Q1 single with correct answer B, Q2
    multiple with correct answers A and C; the user selects B for Q1, then
    C and A for Q2 (a second passes in between). *)
Definition q1 : Question.t := sampleQuestion single ["B"] 1.
Definition q2 : Question.t := sampleQuestion multiple ["A"; "C"] 2.
Definition exam2 : ExamSet.t := sampleExam [q1; q2].

Definition session2 : State :=
  run initialState
    [StartExam exam2; OptionSelect 1 "B" single;
     OptionSelect 2 "C" multiple; Tick; OptionSelect 2 "A" multiple].

(** ** Rendering (lines 139-217)

    What the component returns for a state: the home view, the result
    dashboard, [null], or the exam view of the current question.  The exam
    view reads [currentQ.id] first, which throws a [TypeError] when
    [questions[currentQuestionIdx]] is [undefined]. *)
Inductive Rendered :=
  | RenderHome
  | RenderResult (d : ResultDashboard)
  | RenderNull
  | RenderExam (q : Question.t)
  | RenderTypeError.

Definition render (s : State) : Rendered :=
  match view s with
  | ViewHome => RenderHome
  | v =>
      match v, currentExam s with
      | ViewResult, Some exam => RenderResult (resultScore s exam)
      | _, None => RenderNull
      | _, Some _ =>
          match currentQ s with
          | Some q => RenderExam q
          | None => RenderTypeError
          end
      end
  end.

(** [answeredCount] of the exam view (line 217). *)
Definition answeredCount (s : State) : nat := size (userAnswers s).

(** getOptionClasses (lines 219-231), for the question on screen. *)
Definition optionBase : string :=
  "w-full relative group flex items-start gap-4 p-5 rounded-xl border-2 text-left transition-all duration-200 ease-out ".

Definition optionCorrect : string :=
  "border-green-500 bg-green-50 ring-1 ring-green-500".
Definition optionWrong : string := "border-red-400 bg-red-50 opacity-90".
Definition optionDimmed : string :=
  "border-slate-100 bg-slate-50 opacity-60 grayscale".
Definition optionSelected : string :=
  "border-indigo-600 bg-indigo-50 shadow-md ring-1 ring-indigo-600 z-10 scale-[1.01]".
Definition optionDefault : string :=
  "border-slate-200 bg-white hover:border-indigo-300 hover:bg-slate-50".

Definition getOptionClasses (s : State) (currentQ : Question.t)
    (optionId : string) : string :=
  let currentSelected := answersFor (userAnswers s) (Question.id currentQ) in
  let isSelected := includes optionId currentSelected in
  let classes := optionBase in
  if isReviewMode s then
    let isCorrect := includes optionId (Question.correctAnswers currentQ) in
    if isCorrect then classes +:+ optionCorrect
    else if isSelected && negb isCorrect then classes +:+ optionWrong
    else classes +:+ optionDimmed
  else
    if isSelected then classes +:+ optionSelected
    else classes +:+ optionDefault.

(** The palette button of question [q] at position [idx] (lines 363-392). *)
Definition paletteCorrect : string :=
  "bg-green-100 text-green-700 border-green-200 hover:bg-green-200".
Definition paletteWrong : string :=
  "bg-red-100 text-red-700 border-red-200 hover:bg-red-200".
Definition paletteSkipped : string :=
  "bg-slate-100 text-slate-500 hover:bg-slate-200".
Definition paletteAnswered : string :=
  "bg-indigo-600 text-white border-indigo-600 shadow-md shadow-indigo-200".
Definition paletteUnanswered : string :=
  "bg-white text-slate-600 border-slate-200 hover:bg-slate-50".

Definition bgClass (s : State) (q : Question.t) : string :=
  let st := getQuestionStatus s q in
  if isReviewMode s then
    if negb (isSkipped st) then
      if isCorrect st then paletteCorrect else paletteWrong
    else paletteSkipped
  else
    if isAnswered st then paletteAnswered else paletteUnanswered.

Definition activeClass (s : State) (idx : Z) : string :=
  if bool_decide (currentQuestionIdx s = idx)
  then "ring-2 ring-offset-1 ring-indigo-500 z-10"
  else "border".

Definition paletteClassName (s : State) (q : Question.t) (idx : Z) : string :=
  "h-10 w-full rounded-lg text-sm font-bold transition-all "
    +:+ bgClass s q +:+ " " +:+ activeClass s idx.

(** ** The events a view offers

    [enabled EXAM_DATA s ev]: the control that raises [ev] is on screen and
    not disabled in state [s].  The home view lists the exams of
    [EXAM_DATA] (questions.json, not part of the sources); option buttons
    belong to the question on screen and are disabled in review mode;
    Previous and Next are disabled at the ends; Submit is rendered outside
    review mode; the palette passes the positions of the questions and the
    result view passes 0; [GoHome] stands for the buttons that call
    [handleGoHome]; a tick needs the timer. *)
Definition enabled (EXAM_DATA : list ExamSet.t) (s : State) (ev : Event) : Prop :=
  match ev, render s with
  | StartExam exam, RenderHome => exam ∈ EXAM_DATA
  | OptionSelect qId optionId type, RenderExam q =>
      isReviewMode s = false ∧ qId = Question.id q ∧ type = Question.type q
      ∧ optionId ∈ (Option.id <$> Question.options q)
  | Next, RenderExam _ =>
      match currentExam s with
      | Some exam =>
          currentQuestionIdx s ≠ (Z.of_nat (length (ExamSet.questions exam)) - 1)%Z
      | None => False
      end
  | Prev, RenderExam _ => currentQuestionIdx s ≠ 0%Z
  | SubmitExam _, RenderExam _ => isReviewMode s = false
  | ReviewQuestion index, RenderResult _ => index = 0%Z
  | ReviewQuestion index, RenderExam _ =>
      match currentExam s with
      | Some exam =>
          (0 ≤ index < Z.of_nat (length (ExamSet.questions exam)))%Z
      | None => False
      end
  | GoHome, RenderResult _ => True
  | GoHome, RenderExam _ => True
  | Tick, _ => timerRunning s = true
  | _, _ => False
  end.

(** The states the user interface can bring about. *)
Inductive ui_reachable (EXAM_DATA : list ExamSet.t) : State → Prop :=
  | ui_reachable_init : ui_reachable EXAM_DATA initialState
  | ui_reachable_step s ev :
      ui_reachable EXAM_DATA s → enabled EXAM_DATA s ev →
      ui_reachable EXAM_DATA (step s ev).

(** The current index is a position of the loaded exam. *)
Definition index_in_range (s : State) : Prop :=
  match currentExam s with
  | Some exam =>
      (0 ≤ currentQuestionIdx s < Z.of_nat (length (ExamSet.questions exam)))%Z
  | None => True
  end.

(** Number of [Tick] events in a trace. *)
Definition isTick (ev : Event) : bool :=
  match ev with Tick => true | _ => false end.

Definition ticks (evs : list Event) : nat :=
  length (filter (λ ev, isTick ev = true) evs).

(** Either no exam is loaded and the home view is shown, or an exam of
    [EXAM_DATA] is loaded, another view is shown and the current index is
    a position of the exam. *)
Definition ui_invariant (EXAM_DATA : list ExamSet.t) (s : State) : Prop :=
  match currentExam s with
  | None => view s = ViewHome
  | Some exam =>
      view s ≠ ViewHome ∧ exam ∈ EXAM_DATA
      ∧ (0 ≤ currentQuestionIdx s
           < Z.of_nat (length (ExamSet.questions exam)))%Z
  end.

(** Every answered question id is the id of a question of the loaded
    exam. *)
Definition answers_in_exam (s : State) : Prop :=
  match currentExam s with
  | None => True
  | Some exam =>
      ∀ k, is_Some (userAnswers s !! k) →
           k ∈ (Question.id <$> ExamSet.questions exam)
  end.

(** Each event of a trace is enabled in the state it meets. *)
Fixpoint enabled_all (EXAM_DATA : list ExamSet.t) (s : State)
    (evs : list Event) : Prop :=
  match evs with
  | [] => True
  | ev :: evs => enabled EXAM_DATA s ev ∧ enabled_all EXAM_DATA (step s ev) evs
  end.

(** The example session as the controls allow it: Next before answering
    Q2, then submission and the jump back to the first question. *)
Definition session2_events : list Event :=
  [StartExam exam2; OptionSelect 1 "B" single; Next;
   OptionSelect 2 "C" multiple; Tick; OptionSelect 2 "A" multiple].

Definition session2_ui : State := run initialState session2_events.

(** * Properties *)

(** ** Arrays of option ids *)

Lemma includes_true x arr : includes x arr = true ↔ x ∈ arr.
Proof. unfold includes. apply bool_decide_eq_true. Qed.

Lemma includes_false x arr : includes x arr = false ↔ x ∉ arr.
Proof. unfold includes. apply bool_decide_eq_false. Qed.

Lemma length_eqb_0 {A} (l : list A) : (length l =? 0)%nat = true ↔ l = [].
Proof. rewrite Nat.eqb_eq. apply length_zero_iff_nil. Qed.

Lemma filter_ne_notin (o : string) (l : list string) : o ∉ l → filter (λ id, id ≠ o) l = l.
Proof.
  induction l as [|x l IH]; intros Hnot; [done|].
  apply not_elem_of_cons in Hnot as [Hne Hnot].
  rewrite filter_cons_True by congruence. by rewrite IH.
Qed.

Lemma notin_filter_ne (o : string) (l : list string) : o ∉ filter (λ id, id ≠ o) l.
Proof. rewrite list_elem_of_filter. tauto. Qed.

Lemma filter_ne_snoc (o : string) (l : list string) :
  o ∉ l → filter (λ id, id ≠ o) (l ++ [o]) = l.
Proof.
  intros Hnot. rewrite filter_app, filter_ne_notin by done.
  rewrite filter_cons_False by tauto. apply app_nil_r.
Qed.

Lemma NoDup_snoc_notin (o : string) (l : list string) : NoDup l → o ∉ l → NoDup (l ++ [o]).
Proof.
  intros Hl Hnot. apply NoDup_app. split_and!; [done| |apply NoDup_singleton].
  intros x Hx ->%list_elem_of_singleton. done.
Qed.

(** Removing the occurrences of a member of a duplicate-free array leaves
    the other elements, in their order. *)
Lemma NoDup_filter_ne_perm (o : string) (l : list string) :
  NoDup l → o ∈ l → l ≡ₚ filter (λ id, id ≠ o) l ++ [o].
Proof.
  induction l as [|x l IH]; intros Hnd Hin; [by apply elem_of_nil in Hin|].
  apply NoDup_cons in Hnd as [Hx Hnd].
  destruct (decide (x = o)) as [->|Hne].
  - rewrite filter_cons_False by tauto.
    rewrite filter_ne_notin by done. by rewrite Permutation_app_comm.
  - rewrite filter_cons_True by done.
    apply elem_of_cons in Hin as [?|Hin]; [congruence|].
    simpl. f_equiv. by apply IH.
Qed.

(** ** The answers map under [selectUpdate] *)

Lemma answersFor_Some answers qId l :
  answers !! qId = Some l → answersFor answers qId = l.
Proof. unfold answersFor. by intros ->. Qed.

Lemma answersFor_None answers qId :
  answers !! qId = None → answersFor answers qId = [].
Proof. unfold answersFor. by intros ->. Qed.

Lemma answersFor_insert answers qId l :
  answersFor (<[qId := l]> answers) qId = l.
Proof. unfold answersFor. by rewrite lookup_insert_eq. Qed.

Lemma answersFor_wf answers qId :
  answers_wf answers →
  answers !! qId = None ∧ answersFor answers qId = []
  ∨ answers !! qId = Some (answersFor answers qId)
    ∧ answersFor answers qId ≠ [] ∧ NoDup (answersFor answers qId).
Proof.
  intros Hwf. unfold answersFor. destruct (answers !! qId) as [l|] eqn:E.
  - right. destruct (Hwf _ _ E). by split_and!.
  - by left.
Qed.

Lemma answersFor_nodup answers qId :
  answers_nodup answers → NoDup (answersFor answers qId).
Proof.
  intros Hnd. unfold answersFor. destruct (answers !! qId) as [l|] eqn:E.
  - exact (Hnd _ _ E).
  - apply NoDup_nil_2.
Qed.

Lemma selectUpdate_lookup_ne qId optionId type prev k :
  k ≠ qId → selectUpdate qId optionId type prev !! k = prev !! k.
Proof.
  intros Hne. unfold selectUpdate. destruct type.
  - by rewrite lookup_insert_ne.
  - repeat case_match; by rewrite ?lookup_insert_ne, ?lookup_delete_ne.
Qed.

(** What [selectUpdate] leaves under the key it writes. *)
Lemma selectUpdate_lookup_eq qId optionId type prev :
  selectUpdate qId optionId type prev !! qId =
    match type with
    | single => Some [optionId]
    | multiple =>
        let cur := answersFor prev qId in
        if decide (optionId ∈ cur) then
          match filter (λ id, id ≠ optionId) cur with
          | [] => None
          | l => Some l
          end
        else Some (cur ++ [optionId])
    end.
Proof.
  unfold selectUpdate, includes. destruct type; simpl.
  - by rewrite lookup_insert_eq.
  - destruct (decide (optionId ∈ answersFor prev qId)) as [Hin|Hnot].
    + rewrite bool_decide_eq_true_2 by done.
      destruct (filter _ (answersFor prev qId)) as [|x l] eqn:E; simpl.
      * by rewrite lookup_delete_eq.
      * by rewrite lookup_insert_eq.
    + rewrite bool_decide_eq_false_2 by done. by rewrite lookup_insert_eq.
Qed.

Lemma selectUpdate_nodup qId optionId type prev :
  answers_nodup prev → answers_nodup (selectUpdate qId optionId type prev).
Proof.
  intros Hnd k l Hk. destruct (decide (k = qId)) as [->|Hne].
  - rewrite selectUpdate_lookup_eq in Hk.
    pose proof (answersFor_nodup prev qId Hnd) as Hcur.
    destruct type; simpl in Hk.
    + injection Hk as <-. apply NoDup_singleton.
    + case_decide.
      * assert (NoDup (filter (λ id, id ≠ optionId) (answersFor prev qId)))
          as Hf by by apply NoDup_filter.
        destruct (filter _ (answersFor prev qId)); [done|].
        by injection Hk as <-.
      * injection Hk as <-. by apply NoDup_snoc_notin.
  - rewrite selectUpdate_lookup_ne in Hk by done. exact (Hnd _ _ Hk).
Qed.

Lemma selectUpdate_wf qId optionId type prev :
  answers_wf prev → answers_wf (selectUpdate qId optionId type prev).
Proof.
  intros Hwf k l Hk. destruct (decide (k = qId)) as [->|Hne].
  - split.
    + rewrite selectUpdate_lookup_eq in Hk. destruct type; simpl in Hk.
      * by injection Hk as <-.
      * case_decide.
        -- destruct (filter _ (answersFor prev qId)); [done|].
           by injection Hk as <-.
        -- injection Hk as <-. by intros [? ?]%app_eq_nil.
    + eapply (selectUpdate_nodup qId optionId type prev); [|done].
      intros k' l' Hk'. by destruct (Hwf _ _ Hk').
  - rewrite selectUpdate_lookup_ne in Hk by done. exact (Hwf _ _ Hk).
Qed.

(** Two toggles of one option: either the map is back as it was, or the
    option was selected and now sits at the end of the question's array. *)
Lemma selectUpdate_toggle_twice qId o prev :
  answers_wf prev →
  let twice := selectUpdate qId o multiple (selectUpdate qId o multiple prev) in
  (((o ∉ answersFor prev qId) ∧ twice = prev)
   ∨ (o ∈ answersFor prev qId
      ∧ prev !! qId = Some (answersFor prev qId)
      ∧ twice = <[qId := filter (λ id, id ≠ o) (answersFor prev qId) ++ [o]]> prev)).
Proof.
  intros Hwf twice. subst twice.
  set (cur := answersFor prev qId).
  destruct (decide (o ∈ cur)) as [Hin|Hnot].
  - right. split; [done|].
    destruct (answersFor_wf prev qId Hwf) as [[_ Hnil]|(Hsome & _ & _)].
    { fold cur in Hnil. rewrite Hnil in Hin. by apply elem_of_nil in Hin. }
    split; [done|].
    unfold selectUpdate at 2. fold cur.
    rewrite (proj2 (includes_true o cur)) by done. simpl.
    destruct (length (filter (λ id, id ≠ o) cur) =? 0)%nat eqn:E.
    + apply length_eqb_0 in E. rewrite E.
      unfold selectUpdate. rewrite answersFor_None by apply lookup_delete_eq.
      rewrite (proj2 (includes_false o [])) by apply not_elem_of_nil.
      simpl. apply insert_delete_eq.
    + unfold selectUpdate. rewrite answersFor_insert.
      rewrite (proj2 (includes_false o _)) by apply notin_filter_ne.
      apply insert_insert_eq.
  - left. split; [done|].
    unfold selectUpdate at 2. fold cur.
    rewrite (proj2 (includes_false o cur)) by done.
    unfold selectUpdate. rewrite answersFor_insert.
    rewrite (proj2 (includes_true o (cur ++ [o]))) by set_solver.
    simpl. rewrite filter_ne_snoc by done.
    destruct (answersFor_wf prev qId Hwf) as [[Hnone Hnil]|(Hsome & Hne & _)];
      fold cur in Hnil || fold cur in Hsome, Hne.
    + rewrite Hnil. simpl. rewrite delete_insert_eq. by apply delete_id.
    + destruct (length cur =? 0)%nat eqn:E.
      { by apply length_eqb_0 in E. }
      rewrite insert_insert_eq. by apply insert_id.
Qed.

(** ** Invariants of the reachable states *)

Lemma userAnswers_step s ev :
  userAnswers (step s ev) = userAnswers s
  ∨ userAnswers (step s ev) = ∅
  ∨ ∃ qId optionId type,
      userAnswers (step s ev) = selectUpdate qId optionId type (userAnswers s).
Proof.
  destruct ev; simpl; try by left.
  - by right; left.
  - unfold handleOptionSelect. destruct (isReviewMode s); [by left|].
    right; right. by eexists _, _, _.
  - unfold handleNext. repeat case_match; by left.
  - unfold handlePrev. case_match; by left.
  - unfold handleSubmitExam. repeat case_match; simpl; try by left.
    all: destruct ok; by left.
  - case_match; by left.
Qed.

Lemma reachable_wf s : reachable s → answers_wf (userAnswers s).
Proof.
  induction 1 as [|s ev _ IH]; [apply map_Forall_empty|].
  destruct (userAnswers_step s ev) as [->|[->|(q & o & t & ->)]];
    [done|apply map_Forall_empty|by apply selectUpdate_wf].
Qed.

Lemma answers_wf_nodup answers : answers_wf answers → answers_nodup answers.
Proof. intros Hwf k l Hk. by destruct (Hwf _ _ Hk). Qed.

Lemma reachable_run_from s evs : reachable s → reachable (run s evs).
Proof.
  revert s. induction evs as [|ev evs IH]; intros s Hs; [done|].
  simpl. apply IH. by constructor.
Qed.

Lemma reachable_run evs : reachable (run initialState evs).
Proof. apply reachable_run_from. constructor. Qed.

(** What an event can do to the view, the loaded exam and the mode. *)
Lemma step_modes s ev :
  (view (step s ev) = view s ∧ currentExam (step s ev) = currentExam s
   ∧ isReviewMode (step s ev) = isReviewMode s)
  ∨ (view (step s ev) = ViewExam ∧ isReviewMode (step s ev) = false
     ∧ is_Some (currentExam (step s ev)))
  ∨ (view (step s ev) = ViewResult ∧ isReviewMode (step s ev) = true)
  ∨ (view (step s ev) = ViewExam ∧ currentExam (step s ev) = currentExam s
     ∧ isReviewMode (step s ev) = isReviewMode s)
  ∨ (view (step s ev) = ViewHome ∧ currentExam (step s ev) = None).
Proof.
  destruct ev; simpl.
  - right; left. by split_and!.
  - left. unfold handleOptionSelect.
    destruct (isReviewMode s) eqn:E; simpl; by rewrite ?E.
  - left. unfold handleNext. by repeat case_match.
  - left. unfold handlePrev. by case_match.
  - unfold handleSubmitExam. destruct (currentExam s) eqn:E.
    + destruct (_ <? _)%nat, ok; simpl; [right; right; left|left| |left];
        try done.
      right; right; by left.
    + right; right; by left.
  - by right; right; right; left.
  - by right; right; right; right.
  - left. by case_match.
Qed.

(** The result view is only ever shown in review mode. *)
Lemma reachable_result_review s :
  reachable s → view s = ViewResult → isReviewMode s = true.
Proof.
  induction 1 as [|s ev _ IH]; [done|].
  destruct (step_modes s ev)
    as [(-> & _ & ->)|[(-> & _)|[(_ & ->)|[(-> & _)|(-> & _)]]]]; done.
Qed.

(** A loaded exam is never behind the home view. *)
Lemma reachable_exam_not_home s :
  reachable s → is_Some (currentExam s) → view s ≠ ViewHome.
Proof.
  induction 1 as [|s ev _ IH]; [by intros [? ?]|].
  destruct (step_modes s ev)
    as [(-> & -> & _)|[(-> & _)|[(-> & _)|[(-> & _)|(_ & ->)]]]];
    done.
Qed.

(** ** getQuestionStatus *)

Section status.
Context (s : State) (q : Question.t).
Let userAnswer := answersFor (userAnswers s) (Question.id q).
Let correct := Question.correctAnswers q.

Lemma isCorrect_spec :
  isCorrect (getQuestionStatus s q) = true
  ↔ length correct = length userAnswer ∧ ∀ ans, ans ∈ correct → ans ∈ userAnswer.
Proof.
  unfold getQuestionStatus; simpl. fold userAnswer correct.
  rewrite andb_true_iff, Nat.eqb_eq, forallb_forall.
  apply and_iff_compat_l. split; intros H ans Hans.
  - apply includes_true, H. by apply list_elem_of_In.
  - apply includes_true, H. by apply list_elem_of_In.
Qed.

Lemma isSkipped_spec :
  isSkipped (getQuestionStatus s q) = true
  ↔ userAnswers s !! Question.id q = None
    ∨ userAnswers s !! Question.id q = Some [].
Proof.
  unfold getQuestionStatus; simpl. rewrite length_eqb_0.
  unfold answersFor. destruct (userAnswers s !! Question.id q); simpl.
  - split; [intros ->; by right|]. intros [?|?]; congruence.
  - split; [by left|done].
Qed.

(** On duplicate-free arrays the length test and the inclusion test
    together are equality of the two sets. *)
Lemma same_length_included_iff_same_set :
  NoDup correct → NoDup userAnswer →
  (length correct = length userAnswer ∧ ∀ ans, ans ∈ correct → ans ∈ userAnswer)
  ↔ (list_to_set userAnswer : gset string) = list_to_set correct.
Proof.
  intros Hc Hu. split.
  - intros [Hlen Hsub]. symmetry. apply list_to_set_perm_L.
    apply submseteq_length_Permutation; [by apply NoDup_submseteq|lia].
  - intros Heq.
    assert (∀ x, x ∈ correct ↔ x ∈ userAnswer) as Hiff.
    { intros x. rewrite <-(elem_of_list_to_set (C:=gset string) x correct).
      rewrite <-(elem_of_list_to_set (C:=gset string) x userAnswer).
      by rewrite Heq. }
    split; [|intros x; apply Hiff].
    apply Permutation_length. by apply NoDup_Permutation.
Qed.
End status.

(** [isCorrect] reads the stored array only through its length and its
    members. *)
Lemma isCorrect_permutation s s' q :
  answersFor (userAnswers s') (Question.id q)
    ≡ₚ answersFor (userAnswers s) (Question.id q) →
  isCorrect (getQuestionStatus s' q) = isCorrect (getQuestionStatus s q).
Proof.
  intros Hp. apply eq_true_iff_eq. rewrite !isCorrect_spec.
  rewrite (Permutation_length Hp).
  apply and_iff_compat_l. split; intros H ans Hans.
  - rewrite <-Hp. by apply H.
  - rewrite Hp. by apply H.
Qed.

(** C1. For a question whose [correctAnswers] lists each option id once and
    a session the component can be in: [isSkipped] holds exactly when the
    question has no entry or an empty one, [isAnswered] is its negation,
    [isCorrect] holds exactly when the stored array has the length of
    [correctAnswers] and contains each of its elements, which is exactly
    when the two are the same set; and a session that stores the same
    options in another order gets the same [isCorrect]. *)
Theorem evaluate_status (s : State) (q : Question.t) :
  reachable s →
  NoDup (Question.correctAnswers q) →
  let a := answersFor (userAnswers s) (Question.id q) in
  let st := getQuestionStatus s q in
  (isSkipped st = true
     ↔ userAnswers s !! Question.id q = None
       ∨ userAnswers s !! Question.id q = Some [])
  ∧ isAnswered st = negb (isSkipped st)
  ∧ (isCorrect st = true
     ↔ length (Question.correctAnswers q) = length a
       ∧ ∀ ans, ans ∈ Question.correctAnswers q → ans ∈ a)
  ∧ (isCorrect st = true
     ↔ (list_to_set a : gset string) = list_to_set (Question.correctAnswers q))
  ∧ (∀ s', answersFor (userAnswers s') (Question.id q) ≡ₚ a →
           isCorrect (getQuestionStatus s' q) = isCorrect st).
Proof.
  intros Hs Hc a st. split_and!.
  - apply isSkipped_spec.
  - done.
  - apply isCorrect_spec.
  - subst st. rewrite isCorrect_spec.
    apply same_length_included_iff_same_set; [done|].
    by apply answersFor_nodup, answers_wf_nodup, reachable_wf.
  - intros s' Hp. by apply isCorrect_permutation.
Qed.

(** ** handleOptionSelect *)

Lemma handleOptionSelect_active qId optionId type s :
  isReviewMode s = false →
  handleOptionSelect qId optionId type s
    = setUserAnswers (selectUpdate qId optionId type) s.
Proof. unfold handleOptionSelect. by intros ->. Qed.

Lemma handleOptionSelect_review qId optionId type s :
  isReviewMode s = true → handleOptionSelect qId optionId type s = s.
Proof. unfold handleOptionSelect. by intros ->. Qed.

Lemma handleOptionSelect_nodup qId optionId type s :
  answers_nodup (userAnswers s) →
  answers_nodup (userAnswers (handleOptionSelect qId optionId type s)).
Proof.
  intros Hnd. unfold handleOptionSelect. destruct (isReviewMode s); [done|].
  by apply selectUpdate_nodup.
Qed.

Lemma step_nodup s ev :
  answers_nodup (userAnswers s) → answers_nodup (userAnswers (step s ev)).
Proof.
  intros Hnd.
  destruct (userAnswers_step s ev) as [->|[->|(q & o & t & ->)]];
    [done|apply map_Forall_empty|by apply selectUpdate_nodup].
Qed.

Lemma run_nodup s evs :
  answers_nodup (userAnswers s) → answers_nodup (userAnswers (run s evs)).
Proof.
  revert s. induction evs as [|ev evs IH]; intros s Hnd; [done|].
  simpl. by apply IH, step_nodup.
Qed.

(** Everything [getQuestionStatus] reports depends on the stored array
    only up to its order. *)
Lemma getQuestionStatus_permutation s s' q :
  answersFor (userAnswers s') (Question.id q)
    ≡ₚ answersFor (userAnswers s) (Question.id q) →
  getQuestionStatus s' q = getQuestionStatus s q.
Proof.
  intros Hp.
  pose proof (isCorrect_permutation s s' q Hp) as Hc.
  pose proof (Permutation_length Hp) as Hlen.
  unfold getQuestionStatus in *. simpl in Hc. rewrite Hc, Hlen. done.
Qed.

(** C5. In review mode [handleOptionSelect] returns the state it was given,
    for every question id, option id and question type; so does any
    sequence of such calls, and the answers stay as they were. *)
Theorem select_in_review_is_noop (s : State) (qId : Z) (optionId : string)
    (type : QuestionType) :
  isReviewMode s = true →
  handleOptionSelect qId optionId type s = s
  ∧ userAnswers (handleOptionSelect qId optionId type s) = userAnswers s
  ∧ ∀ calls : list (Z * string * QuestionType),
      foldl (λ st c, handleOptionSelect c.1.1 c.1.2 c.2 st) s calls = s.
Proof.
  intros Hr. rewrite handleOptionSelect_review by done. split_and!; [done..|].
  induction calls as [|c calls IH]; [done|].
  simpl. by rewrite handleOptionSelect_review.
Qed.

(** C10. If no stored array has a repeated option id, none has after
    [handleOptionSelect], nor after any sequence of events: a single-choice
    call writes the one-element array; a multiple-choice call appends the
    option when it is not in the array, and otherwise leaves an array
    without that option. *)
Theorem stored_answers_stay_duplicate_free (s : State) (qId : Z)
    (optionId : string) (type : QuestionType) :
  answers_nodup (userAnswers s) →
  let cur := answersFor (userAnswers s) qId in
  let s' := handleOptionSelect qId optionId type s in
  answers_nodup (userAnswers s')
  ∧ (isReviewMode s = false → type = single →
       userAnswers s' !! qId = Some [optionId])
  ∧ (isReviewMode s = false → type = multiple → optionId ∉ cur →
       userAnswers s' !! qId = Some (cur ++ [optionId]))
  ∧ (isReviewMode s = false → type = multiple → optionId ∈ cur →
       answersFor (userAnswers s') qId = filter (λ id, id ≠ optionId) cur
       ∧ optionId ∉ answersFor (userAnswers s') qId)
  ∧ (∀ evs, answers_nodup (userAnswers (run s evs))).
Proof.
  intros Hnd cur s'. split_and!.
  - by apply handleOptionSelect_nodup.
  - intros Ha ->. subst s'. rewrite handleOptionSelect_active by done.
    cbn [userAnswers setUserAnswers]. by rewrite selectUpdate_lookup_eq.
  - intros Ha -> Hnot. subst s'. rewrite handleOptionSelect_active by done.
    cbn [userAnswers setUserAnswers]. rewrite selectUpdate_lookup_eq. simpl. fold cur.
    by rewrite decide_False.
  - intros Ha -> Hin. subst s'. rewrite handleOptionSelect_active by done.
    cbn [userAnswers setUserAnswers]. unfold answersFor at 1 2. rewrite selectUpdate_lookup_eq. simpl.
    fold cur. rewrite decide_True by done.
    assert (default [] match filter (λ id, id ≠ optionId) cur with
                       | [] => None
                       | x :: l => Some (x :: l)
                       end = filter (λ id, id ≠ optionId) cur) as ->
      by by destruct (filter _ cur).
    split; [done|apply notin_filter_ne].
  - intros evs. by apply run_nodup.
Qed.

(** Without the invariant the length test would misjudge: an array with a
    repeated id can be the right set and still count as incorrect. *)
Remark isCorrect_relies_on_duplicate_freeness :
  let q := sampleQuestion multiple ["A"; "B"] 1 in
  let s := setUserAnswers (λ _, {[ 1%Z := ["A"; "B"; "B"] ]}) initialState in
  (list_to_set (answersFor (userAnswers s) 1) : gset string)
    = list_to_set (Question.correctAnswers q)
  ∧ isCorrect (getQuestionStatus s q) = false.
Proof. split; [|done]. simpl. unfold answersFor. simpl. set_solver. Qed.

(** ** Multiple choice: toggling *)

Lemma answersFor_selectUpdate_multiple qId o prev :
  answersFor (selectUpdate qId o multiple prev) qId
  = if decide (o ∈ answersFor prev qId)
    then filter (λ id, id ≠ o) (answersFor prev qId)
    else answersFor prev qId ++ [o].
Proof.
  unfold answersFor at 1. rewrite selectUpdate_lookup_eq. simpl.
  case_decide; [|done]. by destruct (filter _ (answersFor prev qId)).
Qed.

Lemma answersFor_selectUpdate_ne qId o type prev k :
  k ≠ qId → answersFor (selectUpdate qId o type prev) k = answersFor prev k.
Proof. intros Hne. unfold answersFor. by rewrite selectUpdate_lookup_ne. Qed.

Lemma answers_wf_empty_iff_absent answers qId :
  answers_wf answers → answersFor answers qId = [] ↔ answers !! qId = None.
Proof.
  intros Hwf. destruct (answersFor_wf answers qId Hwf) as [[? ?]|(? & ? & ?)].
  - done.
  - split; [done|congruence].
Qed.

Section toggle_twice.
Context (qId : Z) (o : string) (prev : gmap Z (list string)).
Hypothesis Hwf : answers_wf prev.
Let twice := selectUpdate qId o multiple (selectUpdate qId o multiple prev).

Lemma toggle_twice_permutation k : answersFor twice k ≡ₚ answersFor prev k.
Proof.
  destruct (selectUpdate_toggle_twice qId o prev Hwf)
    as [[_ Heq]|(Hin & Hsome & Heq)]; fold twice in Heq; rewrite Heq; [done|].
  destruct (decide (k = qId)) as [->|Hne].
  - rewrite answersFor_insert. symmetry. apply NoDup_filter_ne_perm; [|done].
    by apply answersFor_nodup, answers_wf_nodup.
  - unfold answersFor. by rewrite lookup_insert_ne.
Qed.

Lemma toggle_twice_dom : dom twice = dom prev.
Proof.
  destruct (selectUpdate_toggle_twice qId o prev Hwf)
    as [[_ Heq]|(Hin & Hsome & Heq)]; fold twice in Heq; rewrite Heq; [done|].
  by apply dom_insert_lookup_L.
Qed.

Lemma toggle_twice_answerSets : answerSets twice = answerSets prev.
Proof.
  destruct (selectUpdate_toggle_twice qId o prev Hwf)
    as [[_ Heq]|(Hin & Hsome & Heq)]; fold twice in Heq; rewrite Heq; [done|].
  unfold answerSets. rewrite fmap_insert. apply insert_id.
  rewrite lookup_fmap, Hsome. simpl. f_equal.
  apply list_to_set_perm_L, NoDup_filter_ne_perm; [|done].
  by apply answersFor_nodup, answers_wf_nodup.
Qed.
End toggle_twice.

(** C3. In a session that is not in review mode, [handleOptionSelect] with
    type [multiple] toggles the option in the question's answers: the
    option is a member afterwards exactly when it was not before, and the
    other members stay.  No entry is left with an empty array: a question
    whose answers become empty has no entry at all.  Only that question's
    entry and nothing else of the state changes.  Two toggles of one
    option in succession give back the answers mapping: the same question
    ids, each with the same set of option ids (every array a permutation of
    what it was, so the answered count and every question's status are as
    before), and the rest of the state as before. *)
Theorem multiple_select_toggles (s : State) (qId : Z) (optionId : string) :
  reachable s →
  isReviewMode s = false →
  let cur := answersFor (userAnswers s) qId in
  let s1 := handleOptionSelect qId optionId multiple s in
  let s2 := handleOptionSelect qId optionId multiple s1 in
  (∀ x, x ∈ answersFor (userAnswers s1) qId
        ↔ (x = optionId ∧ optionId ∉ cur) ∨ (x ≠ optionId ∧ x ∈ cur))
  ∧ (answersFor (userAnswers s1) qId = [] ↔ userAnswers s1 !! qId = None)
  ∧ userAnswers s1 !! qId ≠ Some []
  ∧ (∀ k, k ≠ qId → userAnswers s1 !! k = userAnswers s !! k)
  ∧ s1 = setUserAnswers (λ _, userAnswers s1) s
  ∧ answerSets (userAnswers s2) = answerSets (userAnswers s)
  ∧ dom (userAnswers s2) = dom (userAnswers s)
  ∧ (∀ k, answersFor (userAnswers s2) k ≡ₚ answersFor (userAnswers s) k)
  ∧ size (userAnswers s2) = size (userAnswers s)
  ∧ (∀ q, getQuestionStatus s2 q = getQuestionStatus s q)
  ∧ s2 = setUserAnswers (λ _, userAnswers s2) s.
Proof.
  intros Hs Ha cur s1 s2.
  pose proof (reachable_wf s Hs) as Hwf.
  assert (s1 = setUserAnswers (selectUpdate qId optionId multiple) s) as Hs1
    by by apply handleOptionSelect_active.
  assert (s2 = setUserAnswers (selectUpdate qId optionId multiple) s1) as Hs2.
  { apply handleOptionSelect_active. by rewrite Hs1. }
  assert (answers_wf (userAnswers s1)) as Hwf1.
  { rewrite Hs1. by apply selectUpdate_wf. }
  split_and!.
  - intros x. rewrite Hs1. cbn [userAnswers setUserAnswers].
    rewrite answersFor_selectUpdate_multiple. fold cur. case_decide.
    + rewrite list_elem_of_filter. split.
      * intros [? ?]. by right.
      * intros [[-> ?]|[? ?]]; done.
    + rewrite elem_of_app, list_elem_of_singleton. split.
      * intros [? | ->]; [right|by left]. split; [congruence|done].
      * intros [[-> ?]|[? ?]]; [by right|by left].
  - by apply answers_wf_empty_iff_absent.
  - intros Hk. by destruct (Hwf1 _ _ Hk).
  - intros k Hne. rewrite Hs1. cbn [userAnswers setUserAnswers].
    by apply selectUpdate_lookup_ne.
  - by rewrite Hs1.
  - rewrite Hs2, Hs1. cbn [userAnswers setUserAnswers].
    by apply toggle_twice_answerSets.
  - rewrite Hs2, Hs1. cbn [userAnswers setUserAnswers].
    by apply toggle_twice_dom.
  - intros k. rewrite Hs2, Hs1. cbn [userAnswers setUserAnswers].
    by apply toggle_twice_permutation.
  - rewrite <-!size_dom. f_equal.
    rewrite Hs2, Hs1. cbn [userAnswers setUserAnswers].
    by apply toggle_twice_dom.
  - intros q. apply getQuestionStatus_permutation.
    rewrite Hs2, Hs1. cbn [userAnswers setUserAnswers].
    by apply toggle_twice_permutation.
  - by rewrite Hs2, Hs1.
Qed.

(** The arrays themselves need not come back in their order. *)
Remark toggle_twice_reorders :
  let s := run initialState
             [StartExam (sampleExam [sampleQuestion multiple ["A"; "C"] 2]);
              OptionSelect 2 "A" multiple; OptionSelect 2 "B" multiple] in
  let s2 := run s [OptionSelect 2 "A" multiple; OptionSelect 2 "A" multiple] in
  userAnswers s !! 2%Z = Some ["A"; "B"]
  ∧ userAnswers s2 !! 2%Z = Some ["B"; "A"].
Proof. by vm_compute. Qed.

(** ** Single choice: replacing *)

Lemma NoDup_fmap_eq {A B} (f : A → B) (l : list A) x y :
  NoDup (f <$> l) → x ∈ l → y ∈ l → f x = f y → x = y.
Proof.
  induction l as [|a l IH]; intros Hnd Hx Hy Hf; [by apply elem_of_nil in Hx|].
  rewrite fmap_cons in Hnd. apply NoDup_cons in Hnd as [Ha Hnd].
  apply elem_of_cons in Hx as [->|Hx]; apply elem_of_cons in Hy as [->|Hy].
  - done.
  - exfalso. apply Ha. rewrite Hf. by apply list_elem_of_fmap_2.
  - exfalso. apply Ha. rewrite <-Hf. by apply list_elem_of_fmap_2.
  - by apply IH.
Qed.

Section single.
Context (exam : ExamSet.t) (q : Question.t).
Hypothesis Hids : NoDup (Question.id <$> ExamSet.questions exam).
Hypothesis Hq : q ∈ ExamSet.questions exam.
Hypothesis Hsingle : Question.type q = single.

Lemma clickOption_at_most_one s c :
  c.1 ∈ ExamSet.questions exam →
  (length (answersFor (userAnswers s) (Question.id q)) ≤ 1)%nat →
  (length (answersFor (userAnswers (clickOption s c)) (Question.id q)) ≤ 1)%nat.
Proof.
  intros Hc Hlen. unfold clickOption, handleOptionSelect.
  destruct (isReviewMode s); [done|]. cbn [userAnswers setUserAnswers].
  destruct (decide (Question.id q = Question.id c.1)) as [Heq|Hne].
  - assert (q = c.1) as <- by by eapply NoDup_fmap_eq.
    rewrite Hsingle. unfold selectUpdate. by rewrite answersFor_insert.
  - by rewrite answersFor_selectUpdate_ne.
Qed.

Lemma clicks_at_most_one s clicks :
  Forall (λ c, c.1 ∈ ExamSet.questions exam) clicks →
  (length (answersFor (userAnswers s) (Question.id q)) ≤ 1)%nat →
  (length (answersFor (userAnswers (foldl clickOption s clicks))
                      (Question.id q)) ≤ 1)%nat.
Proof.
  intros Hall. revert s. induction Hall as [|c clicks Hc _ IH]; intros s Hlen.
  - done.
  - simpl. by apply IH, clickOption_at_most_one.
Qed.
End single.

(** C4. In an exam whose question ids are distinct, for a question [q] of
    type [single]: a click on an option of [q] outside review mode stores
    exactly the one-element array of that option under [q], whatever was
    stored, also when that very option was stored; and after any sequence
    of option clicks on questions of the exam, started from
    [handleStartExam], at most one option is stored for [q]. *)
Theorem single_select_replaces (exam : ExamSet.t) (q : Question.t)
    (clicks : list (Question.t * string)) (s0 : State) :
  NoDup (Question.id <$> ExamSet.questions exam) →
  q ∈ ExamSet.questions exam →
  Question.type q = single →
  Forall (λ c, c.1 ∈ ExamSet.questions exam) clicks →
  (∀ s optionId, isReviewMode s = false →
     userAnswers (clickOption s (q, optionId))
       = <[Question.id q := [optionId]]> (userAnswers s)
     ∧ answersFor (userAnswers (clickOption s (q, optionId))) (Question.id q)
       = [optionId]
     ∧ clickOption (clickOption s (q, optionId)) (q, optionId)
       = clickOption s (q, optionId))
  ∧ (length (answersFor
               (userAnswers (foldl clickOption (handleStartExam exam s0) clicks))
               (Question.id q)) ≤ 1)%nat.
Proof.
  intros Hids Hq Hsingle Hclicks. split.
  - intros s optionId Ha.
    assert (clickOption s (q, optionId)
            = setUserAnswers (λ prev, <[Question.id q := [optionId]]> prev) s)
      as Hclick.
    { unfold clickOption. cbn [fst snd].
      rewrite handleOptionSelect_active by done. by rewrite Hsingle. }
    split_and!.
    + by rewrite Hclick.
    + rewrite Hclick. cbn [userAnswers setUserAnswers].
      apply answersFor_insert.
    + rewrite Hclick. unfold clickOption. cbn [fst snd].
      rewrite handleOptionSelect_active by done. rewrite Hsingle.
      unfold setUserAnswers, selectUpdate; simpl. f_equal.
      apply insert_insert_eq.
  - eapply clicks_at_most_one; eauto.
Qed.

(** ** Timer *)

Lemma timerRunning_true s :
  timerRunning s = true ↔ view s = ViewExam ∧ isReviewMode s = false.
Proof.
  unfold timerRunning.
  rewrite andb_true_iff, bool_decide_eq_true, negb_true_iff. done.
Qed.

Lemma run_ticks s n :
  timerRunning s = true →
  run s (replicate n Tick)
    = setTimeElapsed (λ prev, prev + Z.of_nat n)%Z s.
Proof.
  revert s. induction n as [|n IH]; intros s Hrun.
  - destruct s. unfold setTimeElapsed; simpl. f_equal. lia.
  - cbn [replicate run foldl step]. rewrite Hrun. fold (run (tick s)).
    rewrite IH by done. unfold tick, setTimeElapsed; simpl. f_equal. lia.
Qed.


Lemma step_in_review s ev :
  isReviewMode s = true → startsExam ev = false →
  timeElapsed (step s ev) = timeElapsed s ∧ isReviewMode (step s ev) = true.
Proof.
  intros Hr Hev. destruct ev; simpl; try done.
  - by rewrite handleOptionSelect_review.
  - unfold handleNext. by repeat case_match.
  - unfold handlePrev. by case_match.
  - unfold handleSubmitExam. repeat case_match; simpl; try done.
    all: by destruct ok.
  - unfold timerRunning. rewrite Hr, andb_false_r. done.
Qed.

Lemma run_in_review s evs :
  isReviewMode s = true →
  Forall (λ ev, startsExam ev = false) evs →
  timeElapsed (run s evs) = timeElapsed s ∧ isReviewMode (run s evs) = true.
Proof.
  intros Hr Hall. revert s Hr.
  induction Hall as [|ev evs Hev _ IH]; intros s Hr; [done|].
  destruct (step_in_review s ev Hr Hev) as [Ht Hr']. simpl.
  destruct (IH _ Hr') as [-> ->]. done.
Qed.

(** A session that is not in review mode shows the exam, so its timer is
    installed. *)
Lemma active_session_timer s :
  reachable s → is_Some (currentExam s) → isReviewMode s = false →
  view s = ViewExam ∧ timerRunning s = true.
Proof.
  intros Hs Hex Ha.
  pose proof (reachable_exam_not_home s Hs Hex) as Hhome.
  pose proof (reachable_result_review s Hs) as Hres.
  assert (view s = ViewExam) as Hv.
  { destruct (view s); [done| done |]. specialize (Hres eq_refl). congruence. }
  split; [done|]. by apply timerRunning_true.
Qed.

(** C6. In a session (an exam is loaded) that is not in review mode the
    timer is installed, and a tick adds exactly 1 to [timeElapsed] and
    leaves every other field; [n] ticks add exactly [n].  In review mode
    the timer is not installed, a tick changes nothing, and no event short
    of starting a new exam changes [timeElapsed]. *)
Theorem tick_counts_seconds (s : State) (n : nat) :
  reachable s →
  is_Some (currentExam s) →
  isReviewMode s = false →
  timerRunning s = true
  ∧ step s Tick = setTimeElapsed (λ prev, prev + 1)%Z s
  ∧ timeElapsed (step s Tick) = (timeElapsed s + 1)%Z
  ∧ run s (replicate n Tick) = setTimeElapsed (λ prev, prev + Z.of_nat n)%Z s
  ∧ timeElapsed (run s (replicate n Tick)) = (timeElapsed s + Z.of_nat n)%Z
  ∧ (∀ r, isReviewMode r = true → timerRunning r = false ∧ step r Tick = r)
  ∧ (∀ r evs, isReviewMode r = true →
       Forall (λ ev, startsExam ev = false) evs →
       timeElapsed (run r evs) = timeElapsed r
       ∧ isReviewMode (run r evs) = true).
Proof.
  intros Hs Hex Ha.
  destruct (active_session_timer s Hs Hex Ha) as [Hv Hrun].
  split_and!.
  - done.
  - simpl. by rewrite Hrun.
  - simpl. by rewrite Hrun.
  - by apply run_ticks.
  - by rewrite run_ticks.
  - intros r Hr.
    assert (timerRunning r = false) as Hoff.
    { unfold timerRunning. by rewrite Hr, andb_false_r. }
    split; [done|]. simpl. by rewrite Hoff.
  - intros r evs Hr Hall. apply run_in_review; auto.
Qed.

(** ** Submission *)

Lemma partialMessage_ne_fullMessage answeredCount total :
  partialMessage answeredCount total ≠ fullMessage.
Proof. unfold partialMessage, fullMessage. simpl. discriminate. Qed.

(** C7. With an exam loaded and outside review mode, [handleSubmitExam]
    asks for confirmation exactly once: with the message that counts the
    answered questions when fewer than all are answered, and with the
    other message (a different string) otherwise.  On a negative reply the
    state is the one before and the session is still not in review mode;
    on a positive reply the result view is shown and the session is in
    review mode, everything else as before. *)
Theorem submit_asks_for_confirmation (s : State) (exam : ExamSet.t) :
  currentExam s = Some exam →
  isReviewMode s = false →
  let answeredCount := size (userAnswers s) in
  let total := length (ExamSet.questions exam) in
  ∃ k,
    handleSubmitExam s
      = Confirm (if (answeredCount <? total)%nat
                 then partialMessage answeredCount total
                 else fullMessage) k
    ∧ partialMessage answeredCount total ≠ fullMessage
    ∧ k false = s
    ∧ isReviewMode (k false) = false
    ∧ k true = setIsReviewMode true (setView ViewResult s)
    ∧ isReviewMode (k true) = true
    ∧ step s (SubmitExam false) = s
    ∧ isReviewMode (step s (SubmitExam true)) = true.
Proof.
  intros He Ha answeredCount total.
  exists (λ ok, if negb ok then s else enterResult s).
  assert (∀ ok, step s (SubmitExam ok) = if negb ok then s else enterResult s)
    as Hstep.
  { intros ok. simpl. unfold handleSubmitExam. rewrite He. by case_match. }
  split_and!.
  - unfold handleSubmitExam. rewrite He. fold answeredCount total.
    by destruct (answeredCount <? total)%nat.
  - apply partialMessage_ne_fullMessage.
  - done.
  - done.
  - done.
  - done.
  - by rewrite Hstep.
  - by rewrite Hstep.
Qed.

(** ** formatTime *)

Lemma padStart_two_digits n :
  (0 ≤ n < 100)%Z → padStart 2 "0"%char (toString n) = two_digits n.
Proof.
  intros Hn.
  assert (forallb (λ k, String.eqb (padStart 2 "0"%char (toString (Z.of_nat k)))
                                   (two_digits (Z.of_nat k)))
                  (seq 0 100) = true) as Hall by by vm_compute.
  rewrite forallb_forall in Hall.
  specialize (Hall (Z.to_nat n)). rewrite Z2Nat.id in Hall by lia.
  apply String.eqb_eq, Hall, in_seq. lia.
Qed.

Lemma all_from_spec f n z :
  all_from f n z = true → ∀ k, (z ≤ k < z + Z.of_nat n)%Z → f k = true.
Proof.
  revert z. induction n as [|n IH]; intros z Hall k Hk; [lia|].
  simpl in Hall. apply andb_true_iff in Hall as [Hz Hrest].
  destruct (decide (k = z)) as [->|Hne]; [done|].
  apply (IH _ Hrest). lia.
Qed.

(** The integer quotients of [formatTime] are what the float division
    and [Math.floor] give, checked for every second of the first two
    hours. *)
Lemma formatTime_quotients_checked seconds :
  (0 ≤ seconds < 7200)%Z → quotients_exact seconds = true.
Proof.
  intros Hlt.
  assert (all_from quotients_exact (Z.to_nat 7200) 0 = true) as Hall
    by (vm_compute; reflexivity).
  apply (all_from_spec _ _ _ Hall). lia.
Qed.

(** C8. For a non-negative number of seconds: below one hour [formatTime]
    is the minutes and the seconds, two digits each, joined by a colon; from
    one hour on it is the hours in decimal (not padded), the minutes of the
    hour and the seconds of the minute, two digits each, joined by colons.
    [formatTime 65] is "01:05" and [formatTime 3661] is "1:01:01". *)
Theorem formatTime_layout (seconds : Z) :
  (0 ≤ seconds)%Z →
  ((seconds < 3600)%Z →
     formatTime seconds
       = two_digits (seconds / 60) +:+ ":" +:+ two_digits (seconds mod 60))
  ∧ ((3600 ≤ seconds)%Z →
     formatTime seconds
       = toString (seconds / 3600) +:+ ":"
           +:+ two_digits (seconds mod 3600 / 60) +:+ ":"
           +:+ two_digits (seconds mod 60))
  ∧ formatTime 65 = "01:05"
  ∧ formatTime 3661 = "1:01:01".
Proof.
  intros Hpos.
  assert (Z.rem seconds 3600 = seconds mod 3600)%Z as Hr1
    by (apply Z.rem_mod_nonneg; lia).
  assert (Z.rem seconds 60 = seconds mod 60)%Z as Hr2
    by (apply Z.rem_mod_nonneg; lia).
  pose proof (Z.mod_pos_bound seconds 3600 ltac:(lia)) as Hm1.
  pose proof (Z.mod_pos_bound seconds 60 ltac:(lia)) as Hm2.
  assert (0 ≤ seconds mod 3600 / 60 < 60)%Z as Hm3.
  { split; [apply Z.div_pos; lia|apply Z.div_lt_upper_bound; lia]. }
  unfold formatTime. rewrite Hr1, Hr2.
  rewrite !padStart_two_digits by lia.
  split_and!; [| |done..].
  - intros Hlt. rewrite Z.div_small by lia. simpl.
    by rewrite Z.mod_small by lia.
  - intros Hge.
    assert (0 < seconds / 3600)%Z as Hh
      by (apply Z.div_str_pos; lia).
    by rewrite (proj2 (Z.ltb_lt _ _) Hh).
Qed.

(** ** Navigation *)


(** C9, as stated, fails: with one question, [handleReviewQuestion 5]
    takes the index as it is.  The index is out of range; the state
    changes, its index is 5 (not rejected, not clamped), and the exam view
    then finds no question at that index.  The same with index -1. *)
Lemma goTo_out_of_range_is_accepted :
  let s := handleStartExam exam1 initialState in
  length (ExamSet.questions exam1) = 1%nat
  ∧ handleReviewQuestion 5 s ≠ s
  ∧ currentQuestionIdx (handleReviewQuestion 5 s) = 5%Z
  ∧ currentQ (handleReviewQuestion 5 s) = None
  ∧ currentQuestionIdx (handleReviewQuestion (-1) s) = (-1)%Z
  ∧ currentQ (handleReviewQuestion (-1) s) = None.
Proof. split_and!; by vm_compute. Qed.


(** ** Score *)


Lemma resultScore_fields s exam :
  let r := resultScore s exam in
  totalQ r = length (ExamSet.questions exam)
  ∧ correctCount r
    = length (filter (λ q, isCorrect (getQuestionStatus s q) = true)
                     (ExamSet.questions exam))
  ∧ (correctCount r ≤ totalQ r)%nat
  ∧ score r = percentage (correctCount r) (totalQ r).
Proof. split_and!; [done..| |done]. simpl. apply length_filter. Qed.

(** The percentages of all exams of up to 200 questions, by evaluation:
    each is an integer from 0 to 100, and it is the exactly rounded
    percentage or one less. *)
Lemma percentage_checked_up_to_200 c t :
  (1 ≤ t ≤ 200)%nat → (c ≤ t)%nat → percentage_ok c t = true.
Proof.
  intros Ht Hc.
  assert (forallb (λ t, forallb (λ c, percentage_ok c t) (seq 0 (S t)))
                  (seq 1 200) = true) as Hall by by vm_compute.
  rewrite forallb_forall in Hall.
  specialize (Hall t ltac:(apply in_seq; lia)).
  rewrite forallb_forall in Hall. apply Hall, in_seq. lia.
Qed.

(** C2, at 23 correct answers out of 40.  The exact percentage is 57.5,
    which rounds to 58; the result view shows 57, because the binary64
    quotient 23/40 lies below 0.575 and its product with 100 below 57.5.
    (At 5 out of 40 the same kind of tie, 12.5, is shown as 13.) *)
Theorem score_at_23_of_40 :
  resultDashboard (session40 23)
    = Some {| totalQ := 40; correctCount := 23; score := Some 57%Z |}
  ∧ (2 * (100 * 23) = (57 + 58) * 40)%Z
  ∧ round_percent 23 40 = 58%Z
  ∧ resultDashboard (session40 5)
    = Some {| totalQ := 40; correctCount := 5; score := Some 13%Z |}
  ∧ round_percent 5 40 = 13%Z.
Proof. split_and!; by vm_compute. Qed.

(** ** The specification's example session *)

Example session2_answers :
  userAnswers session2 = {[ 1%Z := ["B"]; 2%Z := ["C"; "A"] ]}.
Proof. by vm_compute. Qed.

Example session2_score :
  resultScore session2 exam2
    = {| totalQ := 2; correctCount := 2; score := Some 100%Z |}.
Proof. by vm_compute. Qed.

(** Only Q1 answered, with the wrong option. *)
Example wrong_answer_score :
  let s := run initialState [StartExam exam2; OptionSelect 1 "A" single] in
  resultScore s exam2 = {| totalQ := 2; correctCount := 0; score := Some 0%Z |}
  ∧ isSkipped (getQuestionStatus s q2) = true.
Proof. by vm_compute. Qed.

(** Selecting A for Q2 and toggling it off again removes the entry. *)
Example toggle_off_removes_entry :
  let s := run initialState
             [StartExam exam2; OptionSelect 2 "A" multiple;
              OptionSelect 2 "A" multiple] in
  userAnswers s !! 2%Z = None ∧ userAnswers s = ∅.
Proof. by vm_compute. Qed.

Lemma evaluate_status_witness :
  reachable session2
  ∧ NoDup (Question.correctAnswers q2)
  ∧ (isCorrect (getQuestionStatus session2 q2) = true
     ↔ (list_to_set (answersFor (userAnswers session2) (Question.id q2))
          : gset string)
       = list_to_set (Question.correctAnswers q2)).
Proof.
  assert (reachable session2) as Hr by apply reachable_run.
  assert (NoDup (Question.correctAnswers q2)) as Hn
    by (apply (bool_decide_unpack _); vm_compute; exact I).
  split_and!; [exact Hr|exact Hn|].
  destruct (evaluate_status session2 q2 Hr Hn) as (_ & _ & _ & H & _).
  exact H.
Defined.

Lemma multiple_select_toggles_witness :
  reachable session2
  ∧ isReviewMode session2 = false
  ∧ answerSets
      (userAnswers
         (handleOptionSelect 2 "A" multiple
            (handleOptionSelect 2 "A" multiple session2)))
    = answerSets (userAnswers session2).
Proof.
  assert (reachable session2) as Hr by apply reachable_run.
  assert (isReviewMode session2 = false) as Ha by reflexivity.
  split_and!; [exact Hr|exact Ha|].
  destruct (multiple_select_toggles session2 2 "A" Hr Ha)
    as (_ & _ & _ & _ & _ & H & _).
  exact H.
Defined.

Lemma single_select_replaces_witness :
  NoDup (Question.id <$> ExamSet.questions exam2)
  ∧ q1 ∈ ExamSet.questions exam2
  ∧ Question.type q1 = single
  ∧ (length
       (answersFor
          (userAnswers
             (foldl clickOption (handleStartExam exam2 initialState)
                    [(q1, "A"); (q2, "A"); (q1, "B"); (q1, "B")]))
          (Question.id q1)) ≤ 1)%nat.
Proof.
  assert (NoDup (Question.id <$> ExamSet.questions exam2)) as Hn
    by (apply (bool_decide_unpack _); vm_compute; exact I).
  assert (q1 ∈ ExamSet.questions exam2) as Hq1 by (simpl; constructor).
  assert (q2 ∈ ExamSet.questions exam2) as Hq2
    by (simpl; constructor; constructor).
  split_and!; [exact Hn|exact Hq1|reflexivity|].
  refine (proj2 (single_select_replaces exam2 q1
                   [(q1, "A"); (q2, "A"); (q1, "B"); (q1, "B")] initialState
                   Hn Hq1 eq_refl _)).
  repeat constructor; assumption.
Defined.

Lemma select_in_review_is_noop_witness :
  let s := step session2 (SubmitExam true) in
  isReviewMode s = true ∧ handleOptionSelect 2 "B" multiple s = s.
Proof.
  split; [reflexivity|].
  exact (proj1 (select_in_review_is_noop
                  (step session2 (SubmitExam true)) 2 "B" multiple eq_refl)).
Defined.

Lemma stored_answers_stay_duplicate_free_witness :
  answers_nodup (userAnswers session2)
  ∧ answers_nodup (userAnswers (handleOptionSelect 2 "B" multiple session2)).
Proof.
  assert (answers_nodup (userAnswers session2)) as Hn
    by apply answers_wf_nodup, reachable_wf, reachable_run.
  split; [exact Hn|].
  exact (proj1 (stored_answers_stay_duplicate_free session2 2 "B" multiple Hn)).
Defined.

Lemma tick_counts_seconds_witness :
  reachable session2
  ∧ is_Some (currentExam session2)
  ∧ isReviewMode session2 = false
  ∧ timeElapsed session2 = 1%Z
  ∧ timeElapsed (run session2 (replicate 3 Tick)) = (timeElapsed session2 + 3)%Z.
Proof.
  assert (reachable session2) as Hr by apply reachable_run.
  assert (is_Some (currentExam session2)) as Hex by (eexists; reflexivity).
  split_and!; [exact Hr|exact Hex|reflexivity..|].
  destruct (tick_counts_seconds session2 3 Hr Hex eq_refl)
    as (_ & _ & _ & _ & H & _).
  exact H.
Defined.

Lemma submit_asks_for_confirmation_witness :
  currentExam session2 = Some exam2
  ∧ isReviewMode session2 = false
  ∧ ∃ k, handleSubmitExam session2 = Confirm fullMessage k
         ∧ k false = session2
         ∧ isReviewMode (k true) = true.
Proof.
  split_and!; [reflexivity..|].
  destruct (submit_asks_for_confirmation session2 exam2 eq_refl eq_refl)
    as (k & Hk & _ & Hno & _ & _ & Hyes & _).
  exists k. split_and!; [exact Hk|exact Hno|exact Hyes].
Defined.

Lemma formatTime_layout_witness :
  (0 ≤ 3661)%Z
  ∧ formatTime 3661
    = toString (3661 / 3600) +:+ ":" +:+ two_digits (3661 mod 3600 / 60)
        +:+ ":" +:+ two_digits (3661 mod 60).
Proof.
  assert (0 ≤ 3661)%Z as H0 by lia.
  assert (3600 ≤ 3661)%Z as H1 by lia.
  split; [exact H0|].
  exact (proj1 (proj2 (formatTime_layout 3661 H0)) H1).
Defined.

(** * Further properties *)

(** ** Navigation with Next and Previous *)

(** X1. With an exam loaded and the current index a position of it, Next
    and Previous keep it one: Next adds one except at the last question,
    where it does nothing; Previous subtracts one except at the first,
    where it does nothing; neither touches anything but the index; and
    Previous undoes Next (Next undoes Previous) away from the ends. *)
Theorem next_prev_stay_in_range (s : State) (exam : ExamSet.t) :
  currentExam s = Some exam →
  index_in_range s →
  let last := (Z.of_nat (length (ExamSet.questions exam)) - 1)%Z in
  index_in_range (handleNext s)
  ∧ index_in_range (handlePrev s)
  ∧ handleNext s
    = setCurrentQuestionIdx
        (λ i, if bool_decide (i = last) then i else (i + 1)%Z) s
  ∧ handlePrev s
    = setCurrentQuestionIdx
        (λ i, if bool_decide (i = 0%Z) then i else (i - 1)%Z) s
  ∧ (currentQuestionIdx s ≠ last → handlePrev (handleNext s) = s)
  ∧ (currentQuestionIdx s ≠ 0%Z → handleNext (handlePrev s) = s).
Proof.
  intros He Hin last. unfold index_in_range in *. rewrite He in Hin.
  assert (handleNext s
          = setCurrentQuestionIdx
              (λ i, if bool_decide (i = last) then i else (i + 1)%Z) s) as HN.
  { unfold handleNext, setCurrentQuestionIdx. rewrite He. fold last.
    destruct (decide (currentQuestionIdx s = last)) as [Hl|Hl].
    - rewrite (proj2 (Z.ltb_ge _ _)) by lia.
      rewrite bool_decide_eq_true_2 by done. by destruct s; simplify_eq/=.
    - rewrite (proj2 (Z.ltb_lt _ _)) by lia.
      by rewrite bool_decide_eq_false_2. }
  assert (handlePrev s
          = setCurrentQuestionIdx
              (λ i, if bool_decide (i = 0%Z) then i else (i - 1)%Z) s) as HP.
  { unfold handlePrev, setCurrentQuestionIdx.
    destruct (decide (currentQuestionIdx s = 0%Z)) as [Hl|Hl].
    - rewrite (proj2 (Z.ltb_ge _ _)) by lia.
      rewrite bool_decide_eq_true_2 by done. by destruct s; simplify_eq/=.
    - rewrite (proj2 (Z.ltb_lt _ _)) by lia.
      by rewrite bool_decide_eq_false_2. }
  split_and!.
  - rewrite HN. unfold setCurrentQuestionIdx; simpl. rewrite He.
    case_bool_decide; lia.
  - rewrite HP. unfold setCurrentQuestionIdx; simpl. rewrite He.
    case_bool_decide; lia.
  - done.
  - done.
  - intros Hne. rewrite HN. unfold handlePrev, setCurrentQuestionIdx; simpl.
    rewrite bool_decide_eq_false_2 by done. cbv iota.
    assert ((0 <? currentQuestionIdx s + 1)%Z = true) as ->
      by (apply Z.ltb_lt; lia).
    destruct s; simpl. f_equal. lia.
  - intros Hne. rewrite HP. unfold handleNext, setCurrentQuestionIdx; simpl.
    rewrite He. rewrite bool_decide_eq_false_2 by done. cbv iota.
    assert ((currentQuestionIdx s - 1
               <? Z.of_nat (length (ExamSet.questions exam)) - 1)%Z = true) as ->
      by (apply Z.ltb_lt; lia).
    destruct s; simplify_eq/=. f_equal. lia.
Qed.

(** ** What a selection leaves alone *)

(** X2. [handleOptionSelect], for either question type and in either mode,
    changes nothing but [userAnswers], and in [userAnswers] nothing but the
    entry of the given question. *)
Theorem select_touches_one_entry (s : State) (qId : Z) (optionId : string)
    (type : QuestionType) :
  let s' := handleOptionSelect qId optionId type s in
  s' = setUserAnswers (λ _, userAnswers s') s
  ∧ (∀ k, k ≠ qId → userAnswers s' !! k = userAnswers s !! k)
  ∧ (∀ q, Question.id q ≠ qId → getQuestionStatus s' q = getQuestionStatus s q).
Proof.
  intros s'. subst s'. unfold handleOptionSelect.
  destruct (isReviewMode s) eqn:E.
  - split_and!; [by destruct s|done..].
  - split_and!; [done| |].
    + intros k Hk. cbn [userAnswers setUserAnswers].
      by apply selectUpdate_lookup_ne.
    + intros q Hq. unfold getQuestionStatus. cbn [userAnswers setUserAnswers].
      by rewrite answersFor_selectUpdate_ne.
Qed.

Lemma selectUpdate_commute q1 q2 o1 o2 t1 t2 prev :
  q1 ≠ q2 →
  selectUpdate q1 o1 t1 (selectUpdate q2 o2 t2 prev)
  = selectUpdate q2 o2 t2 (selectUpdate q1 o1 t1 prev).
Proof.
  intros Hne. apply map_eq. intros k.
  destruct (decide (k = q1)) as [->|Hk1]; [|destruct (decide (k = q2)) as [->|Hk2]].
  - rewrite selectUpdate_lookup_eq, (selectUpdate_lookup_ne q2) by done.
    rewrite selectUpdate_lookup_eq. by rewrite answersFor_selectUpdate_ne.
  - rewrite selectUpdate_lookup_eq, (selectUpdate_lookup_ne q1) by done.
    rewrite selectUpdate_lookup_eq. by rewrite answersFor_selectUpdate_ne.
  - by rewrite !selectUpdate_lookup_ne.
Qed.

(** X3. Selections on two different questions commute: the state after
    both does not depend on which came first. *)
Theorem selections_on_different_questions_commute
    (s : State) (q1 q2 : Z) (o1 o2 : string) (t1 t2 : QuestionType) :
  q1 ≠ q2 →
  handleOptionSelect q1 o1 t1 (handleOptionSelect q2 o2 t2 s)
  = handleOptionSelect q2 o2 t2 (handleOptionSelect q1 o1 t1 s).
Proof.
  intros Hne. unfold handleOptionSelect.
  destruct (isReviewMode s) eqn:E; simpl; rewrite ?E; [done|].
  unfold setUserAnswers; simpl. f_equal. by apply selectUpdate_commute.
Qed.

(** ** Status of a question *)

Lemma correct_and_skipped_aux s q :
  isCorrect (getQuestionStatus s q) = true →
  Question.correctAnswers q ≠ [] →
  isAnswered (getQuestionStatus s q) = true.
Proof.
  intros [Hlen _]%isCorrect_spec Hne. unfold getQuestionStatus; simpl.
  apply negb_true_iff, not_true_is_false. rewrite length_eqb_0.
  intros Hnil. rewrite Hnil in Hlen. by destruct (Question.correctAnswers q).
Qed.

(** X4. A question counted as correct is skipped exactly when it has no
    correct answers at all; so with at least one correct answer a question
    counted as correct is an answered one, and a skipped question is never
    counted as correct. *)
Theorem correct_and_skipped (s : State) (q : Question.t) :
  isCorrect (getQuestionStatus s q) = true →
  (isSkipped (getQuestionStatus s q) = true ↔ Question.correctAnswers q = [])
  ∧ (Question.correctAnswers q ≠ [] → isAnswered (getQuestionStatus s q) = true).
Proof.
  intros [Hlen _]%isCorrect_spec.
  assert (isSkipped (getQuestionStatus s q) = true
          ↔ Question.correctAnswers q = []) as Hiff.
  { unfold getQuestionStatus; simpl. rewrite length_eqb_0.
    rewrite <-!length_zero_iff_nil. by rewrite Hlen. }
  split; [done|]. intros Hne. unfold getQuestionStatus in *; simpl in *.
  apply negb_true_iff, not_true_is_false. by rewrite Hiff.
Qed.

Lemma empty_correctAnswers_correct_iff_skipped s q :
  Question.correctAnswers q = [] →
  isCorrect (getQuestionStatus s q) = isSkipped (getQuestionStatus s q).
Proof.
  intros Hnil. unfold getQuestionStatus; simpl. rewrite Hnil. simpl.
  rewrite andb_true_r.
  by destruct (answersFor (userAnswers s) (Question.id q)).
Qed.

(** X5. For a question with the one correct answer [c]: it is correct
    exactly when the stored array is [[c]]; and after a click on option [o]
    of such a single-choice question, outside review mode, it is correct
    exactly when [o] is [c], whatever was selected before. *)
Theorem single_answer_verdict (s : State) (q : Question.t) (c : string) :
  Question.correctAnswers q = [c] →
  (isCorrect (getQuestionStatus s q) = true
     ↔ answersFor (userAnswers s) (Question.id q) = [c])
  ∧ (Question.type q = single → isReviewMode s = false →
     ∀ o, isCorrect (getQuestionStatus (clickOption s (q, o)) q) = true ↔ o = c).
Proof.
  intros Hc.
  assert (∀ st, isCorrect (getQuestionStatus st q) = true
                ↔ answersFor (userAnswers st) (Question.id q) = [c]) as Hiff.
  { intros st. rewrite isCorrect_spec, Hc. split.
    - intros [Hlen Hin].
      destruct (answersFor (userAnswers st) (Question.id q)) as [|x [|y l]];
        simplify_eq/=.
      specialize (Hin c ltac:(set_solver)).
      by apply list_elem_of_singleton in Hin as ->.
    - intros ->. split; [done|]. set_solver. }
  split; [apply Hiff|]. intros Hty Ha o. rewrite Hiff.
  unfold clickOption. cbn [fst snd]. rewrite handleOptionSelect_active by done.
  rewrite Hty. cbn [userAnswers setUserAnswers]. unfold selectUpdate.
  rewrite answersFor_insert. split; congruence.
Qed.

(** ** After submission *)

Lemma step_in_review_answers s ev :
  isReviewMode s = true → startsExam ev = false →
  userAnswers (step s ev) = userAnswers s.
Proof.
  intros Hr Hev. destruct ev; simpl; try done.
  - by rewrite handleOptionSelect_review.
  - unfold handleNext. by repeat case_match.
  - unfold handlePrev. by case_match.
  - unfold handleSubmitExam. repeat case_match; simpl; try done.
    all: by destruct ok.
  - by case_match.
Qed.

Lemma getQuestionStatus_answers s s' q :
  userAnswers s' = userAnswers s → getQuestionStatus s' q = getQuestionStatus s q.
Proof. intros H. unfold getQuestionStatus. by rewrite H. Qed.

Lemma resultScore_answers s s' exam :
  userAnswers s' = userAnswers s → resultScore s' exam = resultScore s exam.
Proof.
  intros H. unfold resultScore.
  assert (filter (λ q, isCorrect (getQuestionStatus s' q) = true)
                 (ExamSet.questions exam)
          = filter (λ q, isCorrect (getQuestionStatus s q) = true)
                   (ExamSet.questions exam)) as ->; [|done].
  apply list_filter_iff. intros q. by rewrite (getQuestionStatus_answers s s').
Qed.

(** X6. Once a session is in review mode, whatever the user does short of
    starting a new exam (selecting options, navigating, going home and so
    on), the stored answers, every question's status and the score of the
    exam are what they were at submission. *)
Theorem review_freezes_score (s : State) (evs : list Event) :
  isReviewMode s = true →
  Forall (λ ev, startsExam ev = false) evs →
  userAnswers (run s evs) = userAnswers s
  ∧ (∀ q, getQuestionStatus (run s evs) q = getQuestionStatus s q)
  ∧ (∀ exam, resultScore (run s evs) exam = resultScore s exam).
Proof.
  intros Hr Hall.
  assert (userAnswers (run s evs) = userAnswers s) as Hsame.
  { revert s Hr. induction Hall as [|ev evs Hev _ IH]; intros s Hr; [done|].
    simpl. destruct (step_in_review s ev Hr Hev) as [_ Hr'].
    fold (run (step s ev) evs). rewrite IH by done.
    by apply step_in_review_answers. }
  split_and!; [done| |].
  - intros q. by apply getQuestionStatus_answers.
  - intros exam. by apply resultScore_answers.
Qed.

(** ** Elapsed time *)

Lemma timeElapsed_step s ev :
  (0 ≤ timeElapsed s)%Z →
  (0 ≤ timeElapsed (step s ev)
     ≤ timeElapsed s + Z.of_nat (ticks [ev]))%Z.
Proof.
  intros Hpos. destruct ev; simpl; try lia.
  - unfold handleOptionSelect. destruct (isReviewMode s); simpl; lia.
  - unfold handleNext. repeat case_match; simpl; lia.
  - unfold handlePrev. case_match; simpl; lia.
  - unfold handleSubmitExam. repeat case_match; simpl; try lia.
    all: destruct ok; simpl; lia.
  - case_match; simpl; unfold ticks; simpl; lia.
Qed.

Lemma ticks_cons ev evs : ticks (ev :: evs) = (ticks [ev] + ticks evs)%nat.
Proof.
  unfold ticks. destruct (isTick ev) eqn:E.
  - rewrite !filter_cons_True by done. simpl. done.
  - rewrite !filter_cons_False by (by rewrite E). done.
Qed.

Lemma timeElapsed_run s evs :
  (0 ≤ timeElapsed s)%Z →
  (0 ≤ timeElapsed (run s evs) ≤ timeElapsed s + Z.of_nat (ticks evs))%Z.
Proof.
  revert s. induction evs as [|ev evs IH]; intros s Hpos.
  - simpl. unfold ticks. simpl. lia.
  - pose proof (timeElapsed_step s ev Hpos) as Hstep.
    specialize (IH (step s ev) ltac:(lia)).
    rewrite ticks_cons. simpl. fold (run (step s ev) evs). lia.
Qed.

(** X7. Whatever happens, the elapsed time is never negative and never
    more than the number of ticks delivered so far. *)
Theorem elapsed_time_bounded_by_ticks (evs : list Event) :
  (0 ≤ timeElapsed (run initialState evs) ≤ Z.of_nat (ticks evs))%Z.
Proof. pose proof (timeElapsed_run initialState evs). simpl in *. lia. Qed.

(** ** Selecting several options *)

Lemma selectUpdate_fresh_options qId (l : list string) prev :
  NoDup l →
  (∀ o, o ∈ l → o ∉ answersFor prev qId) →
  answersFor (foldl (λ m o, selectUpdate qId o multiple m) prev l) qId
  = answersFor prev qId ++ l.
Proof.
  revert prev. induction l as [|o l IH]; intros prev Hnd Hfresh.
  - simpl. by rewrite app_nil_r.
  - apply NoDup_cons in Hnd as [Ho Hnd]. cbn [foldl].
    assert (answersFor (selectUpdate qId o multiple prev) qId
            = answersFor prev qId ++ [o]) as Hone.
    { rewrite answersFor_selectUpdate_multiple.
      rewrite decide_False; [done|]. apply Hfresh. set_solver. }
    rewrite IH; [|done|].
    + rewrite Hone. by rewrite <-app_assoc.
    + intros o' Ho'. rewrite Hone. rewrite elem_of_app, list_elem_of_singleton.
      intros [Hin| ->]; [|done]. apply (Hfresh o'); [set_solver|done].
Qed.

Lemma foldl_handleOptionSelect_active qId ty (l : list string) s :
  isReviewMode s = false →
  foldl (λ st o, handleOptionSelect qId o ty st) s l
  = setUserAnswers (λ prev, foldl (λ m o, selectUpdate qId o ty m) prev l) s.
Proof.
  revert s. induction l as [|o l IH]; intros s Ha; [by destruct s|].
  simpl. rewrite handleOptionSelect_active by done. by rewrite IH.
Qed.

(** X8. Outside review mode, selecting distinct options that are not yet
    selected for a multiple-choice question stores them after the ones
    already there, in the order of the clicks.  So a user who selects
    exactly the correct options of an unanswered question, each once and in
    any order, is marked correct. *)
Theorem selecting_distinct_options (s : State) (q : Question.t)
    (l : list string) :
  isReviewMode s = false →
  NoDup l →
  (∀ o, o ∈ l → o ∉ answersFor (userAnswers s) (Question.id q)) →
  let s' := foldl (λ st o, handleOptionSelect (Question.id q) o multiple st) s l in
  answersFor (userAnswers s') (Question.id q)
    = answersFor (userAnswers s) (Question.id q) ++ l
  ∧ (answersFor (userAnswers s) (Question.id q) = [] →
     l ≡ₚ Question.correctAnswers q →
     isCorrect (getQuestionStatus s' q) = true).
Proof.
  intros Ha Hnd Hfresh s'.
  assert (answersFor (userAnswers s') (Question.id q)
          = answersFor (userAnswers s) (Question.id q) ++ l) as Hl.
  { subst s'. rewrite foldl_handleOptionSelect_active by done.
    cbn [userAnswers setUserAnswers]. by apply selectUpdate_fresh_options. }
  split; [done|]. intros Hnil Hp. apply isCorrect_spec. rewrite Hl, Hnil. simpl.
  split.
  - symmetry. by apply Permutation_length.
  - intros ans Hans. by rewrite Hp.
Qed.

(** ** Sessions driven through the user interface *)

Lemma render_home s : render s = RenderHome → view s = ViewHome.
Proof.
  unfold render. destruct (view s); [done|..];
    destruct (currentExam s); try done; by destruct (currentQ s).
Qed.

Lemma render_result s d :
  render s = RenderResult d →
  view s = ViewResult ∧ ∃ exam, currentExam s = Some exam.
Proof.
  unfold render. destruct (view s); [done|..];
    destruct (currentExam s) eqn:E; try done.
  - by destruct (currentQ s).
  - eauto.
Qed.

Lemma currentQ_Some s q :
  currentQ s = Some q →
  ∃ exam, currentExam s = Some exam ∧ q ∈ ExamSet.questions exam
          ∧ (0 ≤ currentQuestionIdx s
               < Z.of_nat (length (ExamSet.questions exam)))%Z.
Proof.
  unfold currentQ. destruct (currentExam s) as [exam|]; [|done].
  destruct (0 <=? currentQuestionIdx s)%Z eqn:E; [|done].
  intros Hq. exists exam. split; [done|]. split.
  - by eapply list_elem_of_lookup_2.
  - apply Z.leb_le in E. apply lookup_lt_Some in Hq. lia.
Qed.

Lemma render_exam s q :
  render s = RenderExam q → view s = ViewExam ∧ currentQ s = Some q.
Proof.
  unfold render. destruct (view s); [done|..];
    destruct (currentExam s) eqn:E; try done;
    destruct (currentQ s) eqn:Eq; try done.
  by intros [= ->].
Qed.

Lemma ui_reachable_reachable EXAM_DATA s :
  ui_reachable EXAM_DATA s → reachable s.
Proof. induction 1; by constructor. Qed.

Lemma selectUpdate_is_Some qId optionId type prev k :
  is_Some (selectUpdate qId optionId type prev !! k) →
  k = qId ∨ is_Some (prev !! k).
Proof.
  destruct (decide (k = qId)) as [->|Hne]; [by left|].
  rewrite selectUpdate_lookup_ne by done. by right.
Qed.

Section user_interface.
Context (EXAM_DATA : list ExamSet.t).
Hypothesis EXAM_DATA_questions :
  Forall (λ exam, ExamSet.questions exam ≠ []) EXAM_DATA.

Lemma ui_invariant_ext s s' :
  view s' = view s → currentExam s' = currentExam s →
  currentQuestionIdx s' = currentQuestionIdx s →
  ui_invariant EXAM_DATA s → ui_invariant EXAM_DATA s'.
Proof. unfold ui_invariant. by intros -> -> ->. Qed.

Lemma ui_step_invariant s ev :
  ui_invariant EXAM_DATA s → enabled EXAM_DATA s ev →
  ui_invariant EXAM_DATA (step s ev).
Proof.
  intros Hinv Hen. unfold enabled in Hen.
  destruct ev; simpl.
  - destruct (render s) eqn:R; try done.
    unfold ui_invariant; simpl. split_and!; [done..| |].
    + lia.
    + rewrite Forall_forall in EXAM_DATA_questions.
      specialize (EXAM_DATA_questions _ Hen).
      destruct (ExamSet.questions exam); [done|]. simpl. lia.
  - eapply ui_invariant_ext; [| | |exact Hinv];
      unfold handleOptionSelect; by destruct (isReviewMode s).
  - destruct (render s) eqn:R; try done.
    apply render_exam in R as [_ (exam & He & _ & Hin)%currentQ_Some].
    unfold ui_invariant in *. rewrite He in Hinv.
    destruct (next_prev_stay_in_range s exam He) as (Hn & _ & HN & _).
    { unfold index_in_range. by rewrite He. }
    unfold index_in_range in Hn. rewrite HN in *. simpl in *.
    rewrite He in *. by destruct Hinv as (? & ? & _).
  - destruct (render s) eqn:R; try done.
    apply render_exam in R as [_ (exam & He & _ & Hin)%currentQ_Some].
    unfold ui_invariant in *. rewrite He in Hinv.
    destruct (next_prev_stay_in_range s exam He) as (_ & Hp & _ & HP & _).
    { unfold index_in_range. by rewrite He. }
    unfold index_in_range in Hp. rewrite HP in *. simpl in *.
    rewrite He in *. by destruct Hinv as (? & ? & _).
  - destruct (render s) eqn:R; try done.
    apply render_exam in R as [_ (exam & He & _ & Hin)%currentQ_Some].
    unfold ui_invariant in *. rewrite He in Hinv.
    unfold handleSubmitExam. rewrite He.
    destruct Hinv as (? & ? & ?).
    destruct (_ <? _)%nat, ok; simpl; rewrite He; split_and!; done || lia.
  - destruct (render s) eqn:R; try done.
    + apply render_result in R as [_ [exam He]].
      unfold ui_invariant in *; simpl. rewrite He in *.
      destruct Hinv as (? & ? & ?). split_and!; [done|done|lia|lia].
    + apply render_exam in R as [_ (exam & He & _ & Hin)%currentQ_Some].
      unfold ui_invariant in *; simpl. rewrite He in *.
      by destruct Hinv as (? & ? & ?).
  - done.
  - eapply ui_invariant_ext; [| | |exact Hinv]; by destruct (timerRunning s).
Qed.

Lemma ui_reachable_invariant s :
  ui_reachable EXAM_DATA s → ui_invariant EXAM_DATA s.
Proof.
  induction 1 as [|s ev _ IH Hen]; [done|]. by apply ui_step_invariant.
Qed.

Lemma answers_in_exam_ext s s' :
  currentExam s' = currentExam s → userAnswers s' = userAnswers s →
  answers_in_exam s → answers_in_exam s'.
Proof. unfold answers_in_exam. by intros -> ->. Qed.

Lemma ui_step_answers_in_exam s ev :
  answers_in_exam s → enabled EXAM_DATA s ev → answers_in_exam (step s ev).
Proof.
  intros Hinv Hen. unfold enabled in Hen.
  destruct ev; simpl.
  - unfold answers_in_exam; simpl. intros k [? Hk].
    by rewrite lookup_empty in Hk.
  - destruct (render s) eqn:R; try done.
    destruct Hen as (Ha & -> & -> & _).
    apply render_exam in R as [_ (exam & He & Hq & _)%currentQ_Some].
    rewrite handleOptionSelect_active by done.
    unfold answers_in_exam in *; simpl. rewrite He in *.
    intros k [->|Hk]%selectUpdate_is_Some; [|by apply Hinv].
    by apply list_elem_of_fmap_2.
  - eapply answers_in_exam_ext; [| |exact Hinv];
      unfold handleNext; repeat case_match; simpl; congruence.
  - eapply answers_in_exam_ext; [| |exact Hinv];
      unfold handlePrev; by destruct (0 <? _)%Z.
  - eapply answers_in_exam_ext; [| |exact Hinv]; unfold handleSubmitExam;
      destruct (currentExam s) eqn:He; simpl; try done;
      destruct (_ <? _)%nat, ok; simpl; congruence.
  - by eapply answers_in_exam_ext; [| |exact Hinv].
  - done.
  - eapply answers_in_exam_ext; [| |exact Hinv]; by destruct (timerRunning s).
Qed.

Lemma ui_reachable_answers_in_exam s :
  ui_reachable EXAM_DATA s → answers_in_exam s.
Proof.
  induction 1 as [|s ev _ IH Hen]; [done|]. by apply ui_step_answers_in_exam.
Qed.

(** X9. When every exam of [EXAM_DATA] has at least one question, the
    component, driven through its controls, never renders [null] and never
    reads a question that is not there: it shows the home view exactly
    when no exam is loaded, and otherwise the result dashboard or a
    question of the loaded exam at the current index. *)
Theorem ui_never_fails_to_render (s : State) :
  ui_reachable EXAM_DATA s →
  render s ≠ RenderNull
  ∧ render s ≠ RenderTypeError
  ∧ (render s = RenderHome ↔ currentExam s = None)
  ∧ index_in_range s
  ∧ (∀ exam, currentExam s = Some exam →
       exam ∈ EXAM_DATA
       ∧ ∃ q, currentQ s = Some q
              ∧ ExamSet.questions exam !! Z.to_nat (currentQuestionIdx s) = Some q).
Proof.
  intros Hs. pose proof (ui_reachable_invariant s Hs) as Hinv.
  unfold ui_invariant, index_in_range in *.
  destruct (currentExam s) as [exam|] eqn:He.
  - destruct Hinv as (Hv & Hex & Hin).
    assert (∃ q, ExamSet.questions exam !! Z.to_nat (currentQuestionIdx s)
                 = Some q) as [q Hq].
    { apply lookup_lt_is_Some. lia. }
    assert (currentQ s = Some q) as Hcq.
    { unfold currentQ. rewrite He.
      by rewrite (proj2 (Z.leb_le _ _)) by lia. }
    unfold render. rewrite He, Hcq.
    refine (conj _ (conj _ (conj _ (conj Hin _)))).
    + by destruct (view s).
    + by destruct (view s).
    + split; [by destruct (view s)|done].
    + intros ? [= <-]. eauto.
  - unfold render. rewrite Hinv. by split_and!.
Qed.
End user_interface.

(** ** The answered count *)

Lemma length_filter_all {A} (P : A → Prop) `{!∀ x, Decision (P x)} (l : list A) :
  length (filter P l) = length l ↔ ∀ x, x ∈ l → P x.
Proof.
  split.
  - intros Hlen x Hx. destruct (decide (P x)) as [|Hn]; [done|].
    pose proof (length_filter_lt P l x Hx Hn). lia.
  - intros Hall. f_equal. induction l as [|x l IH]; [done|].
    rewrite filter_cons_True by (apply Hall; left).
    f_equal. apply IH. intros y Hy. apply Hall. by right.
Qed.

Lemma isAnswered_is_Some s q :
  answers_wf (userAnswers s) →
  isAnswered (getQuestionStatus s q) = true
  ↔ is_Some (userAnswers s !! Question.id q).
Proof.
  intros Hwf. unfold getQuestionStatus; simpl.
  rewrite negb_true_iff, <-not_true_iff_false, length_eqb_0.
  rewrite answers_wf_empty_iff_absent by done.
  by rewrite <-not_eq_None_Some.
Qed.

Section answered_count.
Context (s : State) (exam : ExamSet.t).
Hypothesis Hwf : answers_wf (userAnswers s).
Hypothesis Hkeys :
  ∀ k, is_Some (userAnswers s !! k) → k ∈ (Question.id <$> ExamSet.questions exam).
Hypothesis Hids : NoDup (Question.id <$> ExamSet.questions exam).

Lemma size_answers_answered :
  size (userAnswers s)
  = length (filter (λ q, isAnswered (getQuestionStatus s q) = true)
                   (ExamSet.questions exam)).
Proof.
  set (P := λ q : Question.t, is_Some (userAnswers s !! Question.id q)).
  rewrite (list_filter_iff _ P) by (intros q; by apply isAnswered_is_Some).
  rewrite <-size_dom, <-(length_fmap Question.id).
  rewrite <-(size_list_to_set (C:=gset Z)).
  - f_equal. apply set_eq. intros k.
    rewrite elem_of_dom, elem_of_list_to_set, list_elem_of_fmap. split.
    + intros Hk. destruct (proj1 (list_elem_of_fmap _ _ _) (Hkeys k Hk))
        as (q & -> & Hq).
      exists q. split; [done|]. by apply list_elem_of_filter.
    + intros (q & -> & [Hq _]%list_elem_of_filter). done.
  - eapply sublist_NoDup; [exact Hids|].
    apply fmap_sublist, sublist_filter.
Qed.
End answered_count.

(** X10. In a session driven through the controls, with distinct question
    ids in the loaded exam: the answered count of the header is the number
    of questions of the exam that have an answer; it is at most the number
    of questions; and it reaches that number, so that submission asks
    "Confirm submission?" instead of counting, exactly when every question
    has an answer. *)
Theorem answered_count_counts_answered (EXAM_DATA : list ExamSet.t)
    (s : State) (exam : ExamSet.t) :
  ui_reachable EXAM_DATA s →
  currentExam s = Some exam →
  NoDup (Question.id <$> ExamSet.questions exam) →
  answeredCount s
    = length (filter (λ q, isAnswered (getQuestionStatus s q) = true)
                     (ExamSet.questions exam))
  ∧ (answeredCount s ≤ length (ExamSet.questions exam))%nat
  ∧ ((∃ k, handleSubmitExam s = Confirm fullMessage k)
     ↔ ∀ q, q ∈ ExamSet.questions exam →
            isAnswered (getQuestionStatus s q) = true).
Proof.
  intros Hs He Hids.
  pose proof (reachable_wf s (ui_reachable_reachable _ _ Hs)) as Hwf.
  pose proof (ui_reachable_answers_in_exam _ _ Hs) as Hkeys.
  unfold answers_in_exam in Hkeys. rewrite He in Hkeys.
  pose proof (size_answers_answered s exam Hwf Hkeys Hids) as Hsize.
  fold (answeredCount s) in Hsize.
  assert (answeredCount s ≤ length (ExamSet.questions exam))%nat as Hle.
  { rewrite Hsize. apply length_filter. }
  split_and!; [done..|].
  rewrite <-length_filter_all, <-Hsize.
  unfold handleSubmitExam. rewrite He. fold (answeredCount s).
  destruct (answeredCount s <? length (ExamSet.questions exam))%nat eqn:E.
  - apply Nat.ltb_lt in E. split; [|lia].
    intros [k Hk].
    assert (partialMessage (answeredCount s) (length (ExamSet.questions exam))
            = fullMessage) as Hm by congruence.
    by apply partialMessage_ne_fullMessage in Hm.
  - apply Nat.ltb_ge in E. split; [lia|]. eauto.
Qed.

(** ** The displayed time determines the elapsed seconds *)

Lemma string_length_app (s1 s2 : string) :
  String.length (s1 +:+ s2) = (String.length s1 + String.length s2)%nat.
Proof. induction s1 as [|c s1 IH]; simpl; [done|]. by rewrite IH. Qed.

Lemma string_app_inj (s1 s2 t1 t2 : string) :
  String.length t1 = String.length t2 →
  s1 +:+ t1 = s2 +:+ t2 → s1 = s2 ∧ t1 = t2.
Proof.
  intros Hlen. revert s2. induction s1 as [|c s1 IH]; intros [|d s2] Heq;
    simpl in Heq.
  - done.
  - apply (f_equal String.length) in Heq.
    rewrite ?string_length_app in Heq. simpl in Heq.
    rewrite ?string_length_app in Heq. lia.
  - apply (f_equal String.length) in Heq.
    rewrite ?string_length_app in Heq. simpl in Heq.
    rewrite ?string_length_app in Heq. lia.
  - change (String c (s1 +:+ t1) = String d (s2 +:+ t2)) in Heq.
    assert (c = d) as -> by congruence.
    assert (s1 +:+ t1 = s2 +:+ t2) as Heq' by congruence.
    destruct (IH _ Heq') as [-> ->]. done.
Qed.

Lemma digit_inj a b :
  (0 ≤ a < 10)%Z → (0 ≤ b < 10)%Z → digit a = digit b → a = b.
Proof.
  intros Ha Hb Heq. apply (f_equal nat_of_ascii) in Heq. unfold digit in Heq.
  rewrite !nat_ascii_embedding in Heq by lia. lia.
Qed.

Lemma two_digits_inj a b :
  (0 ≤ a < 100)%Z → (0 ≤ b < 100)%Z → two_digits a = two_digits b → a = b.
Proof.
  intros Ha Hb Heq. unfold two_digits in Heq.
  assert (digit (a / 10) = digit (b / 10)) as H1 by congruence.
  assert (digit (a mod 10) = digit (b mod 10)) as H0 by congruence.
  pose proof (Z.div_mod a 10 ltac:(lia)) as Hda.
  pose proof (Z.div_mod b 10 ltac:(lia)) as Hdb.
  pose proof (Z.mod_pos_bound a 10 ltac:(lia)) as Hma.
  pose proof (Z.mod_pos_bound b 10 ltac:(lia)) as Hmb.
  apply digit_inj in H1; [|lia..]. apply digit_inj in H0; lia.
Qed.

Lemma formatTime_short seconds :
  (0 ≤ seconds < 3600)%Z →
  formatTime seconds
  = two_digits (seconds / 60) +:+ ":" +:+ two_digits (seconds mod 60).
Proof.
  intros Hs. unfold formatTime.
  rewrite !Z.rem_mod_nonneg by lia.
  rewrite Z.div_small by lia. simpl.
  rewrite (Z.mod_small seconds 3600) by lia.
  by rewrite !padStart_two_digits by (Z.div_mod_to_equations; lia).
Qed.

Lemma formatTime_long seconds :
  (3600 ≤ seconds)%Z →
  formatTime seconds
  = toString (seconds / 3600) +:+ ":"
      +:+ two_digits (seconds mod 3600 / 60) +:+ ":"
      +:+ two_digits (seconds mod 60).
Proof.
  intros Hs. unfold formatTime.
  rewrite !Z.rem_mod_nonneg by lia.
  assert ((0 <? seconds / 3600)%Z = true) as ->
    by (apply Z.ltb_lt; Z.div_mod_to_equations; lia).
  by rewrite !padStart_two_digits by (Z.div_mod_to_equations; lia).
Qed.

(** X11. Two different non-negative numbers of seconds are never displayed
    alike: [formatTime] is injective on them. *)
Theorem formatTime_injective (a b : Z) :
  (0 ≤ a)%Z → (0 ≤ b)%Z → formatTime a = formatTime b → a = b.
Proof.
  intros Ha Hb Heq.
  destruct (decide (a < 3600)%Z) as [Hsa|Hla];
    destruct (decide (b < 3600)%Z) as [Hsb|Hlb].
  - rewrite !formatTime_short in Heq by lia.
    apply string_app_inj in Heq as [Hm Hs]; [|done].
    apply string_app_inj in Hs as [_ Hs']; [|done].
    apply two_digits_inj in Hm; [|Z.div_mod_to_equations; lia..].
    apply two_digits_inj in Hs'; Z.div_mod_to_equations; lia.
  - rewrite formatTime_short, formatTime_long in Heq by lia.
    apply (f_equal String.length) in Heq.
    rewrite !string_length_app in Heq. simpl in Heq. lia.
  - rewrite formatTime_long, formatTime_short in Heq by lia.
    apply (f_equal String.length) in Heq.
    rewrite !string_length_app in Heq. simpl in Heq. lia.
  - rewrite !formatTime_long in Heq by lia.
    apply string_app_inj in Heq as [Hh Hrest]; [|done].
    apply (inj pretty) in Hh.
    apply string_app_inj in Hrest as [_ Hrest']; [|done].
    apply string_app_inj in Hrest' as [Hm Hs]; [|done].
    apply string_app_inj in Hs as [_ Hs']; [|done].
    apply two_digits_inj in Hm; [|Z.div_mod_to_equations; lia..].
    apply two_digits_inj in Hs'; Z.div_mod_to_equations; lia.
Qed.

(** ** What the option buttons and the palette show *)

Ltac strings_differ H :=
  apply String.eqb_eq in H; vm_compute in H; discriminate H.

(** X12. The classes of an option button.  In review mode a correct option
    is shown as correct whether selected or not, a selected incorrect one
    as wrong, the others dimmed; outside review mode the classes say only
    whether the option is selected, and do not depend on the question's
    correct answers. *)
Theorem option_classes_table (s : State) (q : Question.t) (optionId : string) :
  let selected := optionId ∈ answersFor (userAnswers s) (Question.id q) in
  let correct := optionId ∈ Question.correctAnswers q in
  (isReviewMode s = true →
     (getOptionClasses s q optionId = optionBase +:+ optionCorrect ↔ correct)
     ∧ (getOptionClasses s q optionId = optionBase +:+ optionWrong
        ↔ selected ∧ ¬ correct)
     ∧ (getOptionClasses s q optionId = optionBase +:+ optionDimmed
        ↔ ¬ selected ∧ ¬ correct))
  ∧ (isReviewMode s = false →
     (getOptionClasses s q optionId = optionBase +:+ optionSelected ↔ selected)
     ∧ (getOptionClasses s q optionId = optionBase +:+ optionDefault
        ↔ ¬ selected)
     ∧ ∀ q', Question.id q' = Question.id q →
             getOptionClasses s q' optionId = getOptionClasses s q optionId).
Proof.
  intros selected correct. subst selected correct.
  unfold getOptionClasses, includes. split; intros Hr; rewrite Hr.
  - destruct (decide (optionId ∈ Question.correctAnswers q)) as [Hc|Hc];
      [rewrite (bool_decide_eq_true_2 _ Hc)
      |rewrite (bool_decide_eq_false_2 _ Hc)]; simpl.
    + split_and!; (split; [try done; intros H; strings_differ H|tauto]).
    + destruct (decide (optionId ∈ answersFor (userAnswers s) (Question.id q)))
        as [Hs|Hs];
        [rewrite (bool_decide_eq_true_2 _ Hs)
        |rewrite (bool_decide_eq_false_2 _ Hs)]; simpl.
      * split_and!; (split; [try done; intros H; strings_differ H|tauto]).
      * split_and!; (split; [try done; intros H; strings_differ H|tauto]).
  - split_and!.
    + destruct (decide (optionId ∈ answersFor (userAnswers s) (Question.id q)))
        as [Hs|Hs];
        [rewrite (bool_decide_eq_true_2 _ Hs)
        |rewrite (bool_decide_eq_false_2 _ Hs)];
        (split; [try done; intros H; strings_differ H|tauto]).
    + destruct (decide (optionId ∈ answersFor (userAnswers s) (Question.id q)))
        as [Hs|Hs];
        [rewrite (bool_decide_eq_true_2 _ Hs)
        |rewrite (bool_decide_eq_false_2 _ Hs)];
        (split; [try done; intros H; strings_differ H|tauto]).
    + intros q' Hid. by rewrite Hid.
Qed.

Ltac table_case :=
  split;
  [ let H := fresh in intros H; first [done | strings_differ H]
  | let H := fresh in intros H; first [done | by destruct H] ].

(** X13. The colour of a palette button.  In review mode it is the
    correct colour exactly for an answered question counted correct, the
    wrong colour exactly for an answered question counted incorrect, and
    the skipped colour exactly for a skipped one; outside review mode it
    says only whether the question is answered, and does not depend on
    the question's correct answers. *)
Theorem palette_class_table (s : State) (q : Question.t) :
  let st := getQuestionStatus s q in
  (isReviewMode s = true →
     (bgClass s q = paletteCorrect
        ↔ isAnswered st = true ∧ isCorrect st = true)
     ∧ (bgClass s q = paletteWrong
        ↔ isAnswered st = true ∧ isCorrect st = false)
     ∧ (bgClass s q = paletteSkipped ↔ isSkipped st = true))
  ∧ (isReviewMode s = false →
     (bgClass s q = paletteAnswered ↔ isAnswered st = true)
     ∧ (bgClass s q = paletteUnanswered ↔ isSkipped st = true)
     ∧ ∀ q', Question.id q' = Question.id q → bgClass s q' = bgClass s q).
Proof.
  intros st. subst st. unfold bgClass, getQuestionStatus.
  cbn [isCorrect isSkipped isAnswered].
  split; intros Hr; rewrite Hr.
  - destruct (length (answersFor (userAnswers s) (Question.id q)) =? 0)%nat,
      (_ && _); cbn [negb]; split_and!; table_case.
  - split_and!.
    + destruct (length (answersFor (userAnswers s) (Question.id q)) =? 0)%nat;
        cbn [negb]; table_case.
    + destruct (length (answersFor (userAnswers s) (Question.id q)) =? 0)%nat;
        cbn [negb]; table_case.
    + intros q' Hid. by rewrite Hid.
Qed.

(** ** Correct answers among the answered ones *)

Lemma length_filter_impl {A} (P Q : A → Prop) `{!∀ x, Decision (P x)}
    `{!∀ x, Decision (Q x)} (l : list A) :
  (∀ x, x ∈ l → P x → Q x) →
  (length (filter P l) ≤ length (filter Q l))%nat.
Proof.
  induction l as [|x l IH]; intros Himp; [done|].
  assert (length (filter P l) ≤ length (filter Q l))%nat as IH'.
  { apply IH. intros y Hy. apply Himp. by right. }
  destruct (decide (P x)) as [HP|HP].
  - rewrite (filter_cons_True P) by done.
    rewrite (filter_cons_True Q) by (apply Himp; [left|done]). simpl. lia.
  - rewrite (filter_cons_False P) by done.
    destruct (decide (Q x)).
    + rewrite (filter_cons_True Q) by done. simpl. lia.
    + by rewrite (filter_cons_False Q) by done.
Qed.

(** X14. In a session driven through the controls, with distinct question
    ids and at least one correct answer per question, the number of
    correct answers on the result dashboard never exceeds the answered
    count: no unanswered question is counted correct. *)
Theorem correct_count_at_most_answered (EXAM_DATA : list ExamSet.t)
    (s : State) (exam : ExamSet.t) :
  ui_reachable EXAM_DATA s →
  currentExam s = Some exam →
  NoDup (Question.id <$> ExamSet.questions exam) →
  Forall (λ q, Question.correctAnswers q ≠ []) (ExamSet.questions exam) →
  (correctCount (resultScore s exam) ≤ answeredCount s
     ≤ totalQ (resultScore s exam))%nat.
Proof.
  intros Hs He Hids Hca.
  pose proof (reachable_wf s (ui_reachable_reachable _ _ Hs)) as Hwf.
  pose proof (ui_reachable_answers_in_exam _ _ Hs) as Hkeys.
  unfold answers_in_exam in Hkeys. rewrite He in Hkeys.
  unfold answeredCount. rewrite (size_answers_answered s exam Hwf Hkeys Hids).
  simpl. split; [|apply length_filter].
  apply length_filter_impl. intros q Hq Hc.
  rewrite Forall_forall in Hca.
  by apply (correct_and_skipped_aux s q Hc), Hca.
Qed.

(** ** A fresh session *)

(** X15. Starting an exam with at least one question gives the same state
    whatever the component held before (stale answers, time or review mode
    of an earlier attempt): the first question is on screen, nothing is
    answered, every question is skipped, the clock shows 00:00 and runs,
    and a first selection of an option, of either type, stores exactly that
    option. *)
Theorem start_gives_fresh_session (s : State) (exam : ExamSet.t)
    (q0 : Question.t) (qs : list Question.t) :
  ExamSet.questions exam = q0 :: qs →
  let s' := handleStartExam exam s in
  s' = handleStartExam exam initialState
  ∧ render s' = RenderExam q0
  ∧ answeredCount s' = 0%nat
  ∧ (∀ q, isSkipped (getQuestionStatus s' q) = true)
  ∧ timerRunning s' = true
  ∧ formatTime (timeElapsed s') = "00:00"
  ∧ (∀ qId optionId type,
       userAnswers (handleOptionSelect qId optionId type s') !! qId
       = Some [optionId]).
Proof.
  intros Hqs s'. subst s'. split_and!; try done.
  - unfold render, currentQ; simpl. by rewrite Hqs.
  - intros qId optionId type. rewrite handleOptionSelect_active by done.
    cbn [userAnswers setUserAnswers handleStartExam setView setIsReviewMode
         setTimeElapsed setCurrentQuestionIdx setCurrentExam].
    rewrite selectUpdate_lookup_eq. unfold answersFor. rewrite lookup_empty.
    by destruct type.
Qed.

(** ** Selecting and deselecting *)

(** X16. Outside review mode, selecting an option that is not selected for
    a multiple-choice question and then deselecting it gives back exactly
    the state before, arrays in their order and an unanswered question
    again without an entry. *)
Theorem select_then_deselect_restores (s : State) (qId : Z) (optionId : string) :
  reachable s →
  isReviewMode s = false →
  optionId ∉ answersFor (userAnswers s) qId →
  handleOptionSelect qId optionId multiple
    (handleOptionSelect qId optionId multiple s) = s.
Proof.
  intros Hs Ha Hnot.
  rewrite (handleOptionSelect_active _ _ _ s) by done.
  rewrite handleOptionSelect_active by done.
  destruct (selectUpdate_toggle_twice qId optionId (userAnswers s)
              (reachable_wf s Hs)) as [[_ Heq]|[Hin _]]; [|done].
  unfold setUserAnswers.
  cbn [view currentExam currentQuestionIdx userAnswers timeElapsed
       isReviewMode].
  rewrite Heq. by destruct s.
Qed.

(** ** When the score and the clock are on screen *)

(** X17. The result dashboard, and with it the score, is on screen only in
    review mode, and then the timer is not installed. *)
Theorem score_shown_only_in_review (s : State) (d : ResultDashboard) :
  reachable s →
  render s = RenderResult d →
  isReviewMode s = true ∧ timerRunning s = false
  ∧ resultDashboard s = Some d.
Proof.
  intros Hs Hr. destruct (render_result s d Hr) as [Hv [exam He]].
  pose proof (reachable_result_review s Hs Hv) as Hrev.
  split_and!; [done| |].
  - unfold timerRunning. by rewrite Hrev, andb_false_r.
  - unfold resultDashboard, render in *. rewrite Hv, He in *. congruence.
Qed.

(** X18. In a session driven through the controls (every exam of
    [EXAM_DATA] having a question) the timer is installed exactly while a
    question is on screen outside review mode. *)
Theorem clock_runs_while_answering (EXAM_DATA : list ExamSet.t) (s : State) :
  Forall (λ exam, ExamSet.questions exam ≠ []) EXAM_DATA →
  ui_reachable EXAM_DATA s →
  timerRunning s = true
  ↔ (∃ q, render s = RenderExam q) ∧ isReviewMode s = false.
Proof.
  intros Hdata Hs. rewrite timerRunning_true. split.
  - intros [Hv Ha]. split; [|done].
    pose proof (ui_reachable_invariant EXAM_DATA Hdata s Hs) as Hinv.
    unfold ui_invariant in Hinv.
    destruct (currentExam s) as [exam|] eqn:He; [|congruence].
    destruct Hinv as (_ & _ & Hin).
    assert (is_Some (ExamSet.questions exam
                       !! Z.to_nat (currentQuestionIdx s))) as [q Hq]
      by (apply lookup_lt_is_Some; lia).
    exists q. unfold render, currentQ. rewrite Hv, He.
    by rewrite (proj2 (Z.leb_le _ _)), Hq by lia.
  - intros [[q Hq] Ha]. by destruct (render_exam s q Hq).
Qed.

(** ** The example session, through the controls *)

Lemma ui_reachable_run EXAM_DATA s evs :
  ui_reachable EXAM_DATA s → enabled_all EXAM_DATA s evs →
  ui_reachable EXAM_DATA (run s evs).
Proof.
  revert s. induction evs as [|ev evs IH]; intros s Hs Hen; [done|].
  destruct Hen as [Hev Hen]. simpl. apply IH; [|done]. by constructor.
Qed.

Lemma session2_events_enabled : enabled_all [exam2] initialState session2_events.
Proof.
  unfold session2_events. cbn [enabled_all].
  repeat (split; [vm_compute; repeat split; try done; repeat constructor|]).
  done.
Qed.

Lemma session2_ui_reachable : ui_reachable [exam2] session2_ui.
Proof.
  apply ui_reachable_run; [constructor|apply session2_events_enabled].
Qed.

Example session2_ui_answers :
  userAnswers session2_ui = {[ 1%Z := ["B"]; 2%Z := ["C"; "A"] ]}
  ∧ currentQuestionIdx session2_ui = 1%Z.
Proof. by vm_compute. Qed.

Lemma next_prev_stay_in_range_witness :
  currentExam session2_ui = Some exam2
  ∧ index_in_range session2_ui
  ∧ handleNext (handlePrev session2_ui) = session2_ui.
Proof.
  assert (index_in_range session2_ui) as Hin by (vm_compute; split; congruence).
  split_and!; [reflexivity|exact Hin|].
  destruct (next_prev_stay_in_range session2_ui exam2 eq_refl Hin)
    as (_ & _ & _ & _ & _ & H).
  apply H. vm_compute. discriminate.
Defined.

Lemma selections_on_different_questions_commute_witness :
  1%Z ≠ 2%Z
  ∧ handleOptionSelect 1 "A" single (handleOptionSelect 2 "B" multiple session2)
    = handleOptionSelect 2 "B" multiple (handleOptionSelect 1 "A" single session2).
Proof.
  assert (1%Z ≠ 2%Z) as Hne by lia.
  split; [exact Hne|].
  exact (selections_on_different_questions_commute
           session2 1 2 "A" "B" single multiple Hne).
Defined.

Lemma correct_and_skipped_witness :
  isCorrect (getQuestionStatus session2 q2) = true
  ∧ isAnswered (getQuestionStatus session2 q2) = true.
Proof.
  assert (isCorrect (getQuestionStatus session2 q2) = true) as Hc
    by (vm_compute; reflexivity).
  split; [exact Hc|].
  apply (proj2 (correct_and_skipped session2 q2 Hc)). simpl. discriminate.
Defined.

Lemma single_answer_verdict_witness :
  Question.correctAnswers q1 = ["B"]
  ∧ (isCorrect (getQuestionStatus session2 q1) = true
     ↔ answersFor (userAnswers session2) (Question.id q1) = ["B"]).
Proof.
  split; [reflexivity|].
  exact (proj1 (single_answer_verdict session2 q1 "B" eq_refl)).
Defined.

Lemma review_freezes_score_witness :
  let s := step session2 (SubmitExam true) in
  let evs := [OptionSelect 1 "A" single; ReviewQuestion 1; Tick; GoHome] in
  isReviewMode s = true
  ∧ Forall (λ ev, startsExam ev = false) evs
  ∧ userAnswers (run s evs) = userAnswers s.
Proof.
  intros s evs.
  assert (Forall (λ ev, startsExam ev = false) evs) as Hall
    by (repeat constructor).
  split_and!; [reflexivity|exact Hall|].
  exact (proj1 (review_freezes_score s evs eq_refl Hall)).
Defined.

Lemma selecting_distinct_options_witness :
  let s := handleStartExam exam2 initialState in
  isReviewMode s = false
  ∧ NoDup ["C"; "A"]
  ∧ isCorrect
      (getQuestionStatus
         (foldl (λ st o, handleOptionSelect (Question.id q2) o multiple st)
                s ["C"; "A"]) q2) = true.
Proof.
  intros s.
  assert (NoDup ["C"; "A"]) as Hnd
    by (apply (bool_decide_unpack _); vm_compute; exact I).
  assert (∀ o, o ∈ ["C"; "A"]
               → o ∉ answersFor (userAnswers s) (Question.id q2)) as Hfresh
    by (intros o _; apply not_elem_of_nil).
  split_and!; [reflexivity|exact Hnd|].
  apply (proj2 (selecting_distinct_options s q2 ["C"; "A"] eq_refl Hnd Hfresh));
    [reflexivity|].
  apply Permutation_swap.
Defined.

Lemma ui_never_fails_to_render_witness :
  Forall (λ exam, ExamSet.questions exam ≠ []) [exam2]
  ∧ ui_reachable [exam2] session2_ui
  ∧ render session2_ui ≠ RenderTypeError.
Proof.
  assert (Forall (λ exam, ExamSet.questions exam ≠ []) [exam2]) as Hdata
    by (repeat constructor; discriminate).
  split_and!; [exact Hdata|exact session2_ui_reachable|].
  exact (proj1 (proj2 (ui_never_fails_to_render [exam2] Hdata session2_ui
                         session2_ui_reachable))).
Defined.

Lemma answered_count_counts_answered_witness :
  ui_reachable [exam2] session2_ui
  ∧ currentExam session2_ui = Some exam2
  ∧ NoDup (Question.id <$> ExamSet.questions exam2)
  ∧ answeredCount session2_ui
    = length (filter (λ q, isAnswered (getQuestionStatus session2_ui q) = true)
                     (ExamSet.questions exam2)).
Proof.
  assert (NoDup (Question.id <$> ExamSet.questions exam2)) as Hn
    by (apply (bool_decide_unpack _); vm_compute; exact I).
  split_and!; [exact session2_ui_reachable|reflexivity|exact Hn|].
  exact (proj1 (answered_count_counts_answered [exam2] session2_ui exam2
                  session2_ui_reachable eq_refl Hn)).
Defined.

Lemma formatTime_injective_witness :
  (0 ≤ 3661)%Z
  ∧ formatTime (3600 + 61) = formatTime 3661
  ∧ (3600 + 61 = 3661)%Z.
Proof.
  assert (0 ≤ 3661)%Z as H0 by lia.
  assert (0 ≤ 3600 + 61)%Z as H1 by lia.
  split_and!; [exact H0|reflexivity|].
  exact (formatTime_injective (3600 + 61) 3661 H1 H0 eq_refl).
Defined.

Lemma correct_count_at_most_answered_witness :
  ui_reachable [exam2] session2_ui
  ∧ Forall (λ q, Question.correctAnswers q ≠ []) (ExamSet.questions exam2)
  ∧ (correctCount (resultScore session2_ui exam2) ≤ answeredCount session2_ui)%nat.
Proof.
  assert (NoDup (Question.id <$> ExamSet.questions exam2)) as Hn
    by (apply (bool_decide_unpack _); vm_compute; exact I).
  assert (Forall (λ q, Question.correctAnswers q ≠ [])
                 (ExamSet.questions exam2)) as Hca
    by (repeat constructor; discriminate).
  split_and!; [exact session2_ui_reachable|exact Hca|].
  exact (proj1 (correct_count_at_most_answered [exam2] session2_ui exam2
                  session2_ui_reachable eq_refl Hn Hca)).
Defined.

Lemma start_gives_fresh_session_witness :
  ExamSet.questions exam2 = q1 :: [q2]
  ∧ render (handleStartExam exam2 (step session2 (SubmitExam true)))
    = RenderExam q1.
Proof.
  split; [reflexivity|].
  exact (proj1 (proj2 (start_gives_fresh_session
                         (step session2 (SubmitExam true)) exam2 q1 [q2]
                         eq_refl))).
Defined.

Lemma select_then_deselect_restores_witness :
  reachable session2
  ∧ ("B" ∉ answersFor (userAnswers session2) 2)
  ∧ handleOptionSelect 2 "B" multiple
      (handleOptionSelect 2 "B" multiple session2) = session2.
Proof.
  assert (reachable session2) as Hr by apply reachable_run.
  assert ("B" ∉ answersFor (userAnswers session2) 2) as Hnot
    by (apply (bool_decide_unpack _); vm_compute; exact I).
  split_and!; [exact Hr|exact Hnot|].
  exact (select_then_deselect_restores session2 2 "B" Hr eq_refl Hnot).
Defined.

Lemma score_shown_only_in_review_witness :
  let s := step session2 (SubmitExam true) in
  reachable s
  ∧ render s = RenderResult (resultScore s exam2)
  ∧ isReviewMode s = true.
Proof.
  intros s.
  assert (reachable s) as Hr by (constructor; apply reachable_run).
  split_and!; [exact Hr|reflexivity|].
  exact (proj1 (score_shown_only_in_review s (resultScore s exam2) Hr eq_refl)).
Defined.

Lemma clock_runs_while_answering_witness :
  Forall (λ exam, ExamSet.questions exam ≠ []) [exam2]
  ∧ ui_reachable [exam2] session2_ui
  ∧ timerRunning session2_ui = true.
Proof.
  assert (Forall (λ exam, ExamSet.questions exam ≠ []) [exam2]) as Hdata
    by (repeat constructor; discriminate).
  split_and!; [exact Hdata|exact session2_ui_reachable|].
  apply (proj2 (clock_runs_while_answering [exam2] session2_ui Hdata
                  session2_ui_reachable)).
  split; [exists q2|]; reflexivity.
Defined.

(** ** Jumping to a question *)

(** C9, amended. [handleReviewQuestion] makes no range check: with an exam
    loaded, for every index, in range or not, it stores the index as the
    current one and selects the exam view, leaving the rest of the state
    (no clamping, no rejection).  What follows depends on the index: for a
    position of the exam the next render shows the question at that
    position; for any other index the next render fails with a
    [TypeError], reading a question that is not there.  The controls of
    the component (the palette and the Review Answers button, every exam
    having a question) raise the jump only with positions of the exam. *)
Theorem goTo_is_unchecked (EXAM_DATA : list ExamSet.t) (s : State)
    (exam : ExamSet.t) (index : Z) :
  currentExam s = Some exam →
  let s' := handleReviewQuestion index s in
  let n := Z.of_nat (length (ExamSet.questions exam)) in
  s' = {| view := ViewExam; currentExam := Some exam;
          currentQuestionIdx := index; userAnswers := userAnswers s;
          timeElapsed := timeElapsed s; isReviewMode := isReviewMode s |}
  ∧ ((0 ≤ index < n)%Z →
     ∃ q, ExamSet.questions exam !! Z.to_nat index = Some q
          ∧ render s' = RenderExam q)
  ∧ (¬ (0 ≤ index < n)%Z → render s' = RenderTypeError)
  ∧ (Forall (λ e, ExamSet.questions e ≠ []) EXAM_DATA →
     ui_reachable EXAM_DATA s →
     enabled EXAM_DATA s (ReviewQuestion index) →
     (0 ≤ index < n)%Z).
Proof.
  intros He s' n.
  assert (render s'
          = match (if (0 <=? index)%Z
                   then ExamSet.questions exam !! Z.to_nat index
                   else None) with
            | Some q => RenderExam q
            | None => RenderTypeError
            end) as Hrender.
  { subst s'. unfold render, currentQ, handleReviewQuestion; simpl.
    by rewrite He. }
  split_and!.
  - subst s'. unfold handleReviewQuestion, setView, setCurrentQuestionIdx.
    simpl. by rewrite He.
  - intros Hin.
    assert (is_Some (ExamSet.questions exam !! Z.to_nat index)) as [q Hq]
      by (apply lookup_lt_is_Some; lia).
    exists q. split; [done|]. rewrite Hrender.
    by rewrite (proj2 (Z.leb_le _ _)), Hq by lia.
  - intros Hout. rewrite Hrender.
    destruct (0 <=? index)%Z eqn:E; [|done].
    apply Z.leb_le in E.
    by rewrite (proj2 (lookup_ge_None _ _)) by lia.
  - intros Hdata Hs Hen.
    pose proof (ui_reachable_invariant EXAM_DATA Hdata s Hs) as Hinv.
    unfold ui_invariant in Hinv. rewrite He in Hinv.
    destruct Hinv as (_ & _ & Hidx).
    unfold enabled in Hen. destruct (render s); try done.
    + subst index. lia.
    + by rewrite He in Hen.
Qed.

Lemma goTo_is_unchecked_witness :
  let s := handleStartExam exam1 initialState in
  currentExam s = Some exam1
  ∧ ¬ (0 ≤ 5 < Z.of_nat (length (ExamSet.questions exam1)))%Z
  ∧ currentQuestionIdx (handleReviewQuestion 5 s) = 5%Z
  ∧ render (handleReviewQuestion 5 s) = RenderTypeError.
Proof.
  intros s.
  assert (¬ (0 ≤ 5 < Z.of_nat (length (ExamSet.questions exam1)))%Z) as Hout
    by (simpl; lia).
  destruct (goTo_is_unchecked [exam1] s exam1 5 eq_refl)
    as (Hstate & _ & Hrender & _).
  split_and!; [reflexivity|exact Hout| |exact (Hrender Hout)].
  exact (f_equal currentQuestionIdx Hstate).
Defined.
